(** * bash-shortcuts: the plugin controller and the shortcuts state

    A shallow embedding of [src/lib/controllers/PluginController.ts] and
    [src/state/ShortcutsState.tsx], with the properties of the
    specification stated over it.

    Conventions of the embedding.
    - A method that mutates an object and talks to collaborators is a
      function in the state-and-trace monad [SW]: it takes the object,
      returns its result, the updated object and the list of effects it
      performed, in program order.
    - A JavaScript object used as a dictionary is the list of its own
      properties in enumeration order ([JsObject]); this is the order
      [Object.keys] and [Object.values] produce.
    - [Set<string>] is a [gset string]: the code only adds, deletes and
      tests membership.
    - [number] fields that hold ordering keys are integers ([Z]).
    - An [async] method runs to completion: what its [await]s resolve to
      is either an argument of the function (answers of the backend and of
      the host) or the result of a method of the instances controller. *)

From Stdlib Require Import ZArith Ascii String List.
From stdpp Require Import base decidable option list strings gmap sorting.

Open Scope Z_scope.
Open Scope string_scope.
Open Scope list_scope.

(** ** State and trace monad *)

Module SW.
Definition M (S E A : Type) : Type := S -> A * S * list E.

Definition ret {S E A} (a : A) : M S E A := fun s => (a, s, []).

Definition bind {S E A B} (m : M S E A) (k : A -> M S E B) : M S E B :=
  fun s =>
    let '(a, s1, t1) := m s in
    let '(b, s2, t2) := k a s1 in
    (b, s2, t1 ++ t2).

Definition get {S E} : M S E S := fun s => (s, s, []).
Definition modify {S E} (f : S -> S) : M S E unit := fun s => (tt, f s, []).
Definition emit {S E} (e : E) : M S E unit := fun s => (tt, s, [e]).

Definition result {S E A} (r : A * S * list E) : A := r.1.1.
Definition final {S E A} (r : A * S * list E) : S := r.1.2.
Definition trace {S E A} (r : A * S * list E) : list E := r.2.
End SW.

Notation "'do' x <- m ; k" := (SW.bind m (fun x => k))
  (at level 10, x name, m at level 100, k at level 200).
Notation "'run' m ; k" := (SW.bind m (fun _ => k))
  (at level 10, m at level 100, k at level 200).

(** ** JavaScript objects used as dictionaries *)

Module JsObject.
(** Own enumerable string-keyed properties, in enumeration order.  For
    keys that are not array indices (shortcut ids are UUIDs) this is
    insertion order. *)
Definition t (V : Type) : Type := list (string * V).

Definition empty {V} : t V := [].

(** [Object.keys(o)] *)
Definition keys {V} (o : t V) : list string := map fst o.

(** [Object.values(o)] *)
Definition values {V} (o : t V) : list V := map snd o.

(** The own property of [o] under [k], if [o] has one. *)
Fixpoint get {V} (k : string) (o : t V) : option V :=
  match o with
  | [] => None
  | (k', v) :: o' => if String.eqb k k' then Some v else get k o'
  end.

(** Write to a table kept in insertion order: an existing key keeps its
    place, a new one goes last.  It is what [o[k] = v] does to the own
    properties when [k] is neither an array index nor [__proto__]; [assign]
    below is the assignment for every key. *)
Fixpoint set {V} (k : string) (v : V) (o : t V) : t V :=
  match o with
  | [] => [(k, v)]
  | (k', v') :: o' =>
      if String.eqb k k' then (k, v) :: o' else (k', v') :: set k v o'
  end.

(** [delete o[k]] *)
Fixpoint remove {V} (k : string) (o : t V) : t V :=
  match o with
  | [] => []
  | (k', v') :: o' =>
      if String.eqb k k' then o' else (k', v') :: remove k o'
  end.

(** What the read [o[k]] evaluates to: the own property, or else whatever
    the prototype chain of [o] gives for [k]: [undefined] when no object
    of the chain has [k], and for a plain object the member of
    [Object.prototype] of that name ([constructor], [toString],
    [__proto__], ...). *)
Inductive Lookup (V : Type) : Type :=
  | Own (v : V)
  | Inherited (k : string).
Arguments Own {V} v.
Arguments Inherited {V} k.

(** [o[k]] *)
Definition lookup {V} (k : string) (o : t V) : Lookup V :=
  match get k o with
  | Some v => Own v
  | None => Inherited k
  end.

(** Decimal value of a string of digits. *)
Definition digit (c : ascii) : option N :=
  let n := N_of_ascii c in
  if (48 <=? n)%N && (n <=? 57)%N then Some (n - 48)%N else None.

Fixpoint decimal (s : string) (acc : N) : option N :=
  match s with
  | EmptyString => Some acc
  | String c s' =>
      match digit c with
      | Some d => decimal s' (10 * acc + d)%N
      | None => None
      end
  end.

(** A property key is an array index when it is the canonical decimal form
    (no sign, no leading zero) of an integer from 0 to 2^32 - 2. *)
Definition array_index (k : string) : option N :=
  match k with
  | EmptyString => None
  | String c rest =>
      if Ascii.eqb c "0"%char && negb (String.eqb rest "") then None
      else
        match decimal k 0 with
        | Some n => if (n <=? 4294967294)%N then Some n else None
        | None => None
        end
  end.

(** A new property whose key is the array index [n] takes its place among
    the array indices, which are enumerated first, in ascending order. *)
Fixpoint insert_index {V} (n : N) (k : string) (v : V) (o : t V) : t V :=
  match o with
  | [] => [(k, v)]
  | (k', v') :: o' =>
      match array_index k' with
      | Some n' =>
          if (n' <? n)%N then (k', v') :: insert_index n k v o'
          else (k, v) :: (k', v') :: o'
      | None => (k, v) :: (k', v') :: o'
      end
  end.

(** [o[k] = v] on an object whose prototype is [Object.prototype], as an
    object literal or a spread copy has it: an own property is overwritten
    in place; otherwise the key [__proto__] runs the setter of
    [Object.prototype], which, [v] being an object, replaces the prototype
    and creates no own property; an array index is filed among the array
    indices; any other key goes last. *)
Definition assign {V} (k : string) (v : V) (o : t V) : t V :=
  match get k o with
  | Some _ => set k v o
  | None =>
      if String.eqb k "__proto__" then o
      else
        match array_index k with
        | Some n => insert_index n k v o
        | None => set k v o
        end
  end.


(** An object has one property per key. *)
Definition wf {V} (o : t V) : Prop := NoDup (keys o).
End JsObject.

(** ** Arrays *)

Module JsArray.
(** [arr.includes(x)] on an array of strings: a left-to-right scan. *)
Fixpoint includes (arr : list string) (x : string) : bool :=
  match arr with
  | [] => false
  | y :: arr' => if String.eqb y x then true else includes arr' x
  end.

(** Elements [includes] compares before it answers. *)
Fixpoint includes_steps (arr : list string) (x : string) : nat :=
  match arr with
  | [] => 0
  | y :: arr' => if String.eqb y x then 1 else S (includes_steps arr' x)
  end.

(** [arr[i] = x] for [i <= arr.length]: overwrite inside, extend by one
    at the end. *)
Definition assign {A} (arr : list A) (i : nat) (x : A) : list A :=
  if decide (i < length arr)%nat then <[i := x]> arr else arr ++ [x].

(** [arr.sort(cmp)]: the sort is stable, so the result is the one
    insertion from the right produces. [cmp a b <= 0] keeps [a] before
    [b]. *)
Fixpoint insert {A} (cmp : A -> A -> Z) (x : A) (l : list A) : list A :=
  match l with
  | [] => [x]
  | y :: l' => if Z.leb (cmp x y) 0 then x :: y :: l' else y :: insert cmp x l'
  end.

Fixpoint sort {A} (cmp : A -> A -> Z) (l : list A) : list A :=
  match l with
  | [] => []
  | x :: l' => insert cmp x (sort cmp l')
  end.
End JsArray.

(** ** Shortcuts *)

(** Modelled from the spec: the [Shortcut] class
    ([lib/data-structures/Shortcut]) is not among the sources; its fields
    are those of section 3, of which the code here reads [id], [name] and
    [position]. *)
Record Shortcut : Type := mkShortcut {
  id : string;
  name : string;
  cmd : string;
  position : Z;
  onPreLaunch : list string;
  onPostLaunch : list string;
  onPostExit : list string
}.

Definition ShortcutsDictionary : Type := JsObject.t Shortcut.

(** [ReorderableEntry<Shortcut>] of the UI library. *)
Record ReorderableEntry : Type := mkEntry {
  label : string;
  data : Shortcut;
  entry_position : Z
}.

(** ** ShortcutsState *)

Record PublicShortcutsState : Type := mkPublic {
  pub_shortcuts : ShortcutsDictionary;
  pub_shortcutsList : list Shortcut;
  pub_runningShortcuts : gset string;
  pub_reorderableShortcuts : list ReorderableEntry
}.

Record ShortcutsState : Type := mkState {
  shortcuts : ShortcutsDictionary;
  shortcutsList : list Shortcut;
  runningShortcuts : gset string;
  reorderableShortcuts : list ReorderableEntry
}.

(** An event delivered on [eventBus]: its type and what a listener that
    calls [getPublicState] from inside the notification reads. *)
Record Dispatched : Type := mkDispatched {
  ev_type : string;
  ev_seen : PublicShortcutsState
}.

Module ShortcutsState.
Definition M := SW.M ShortcutsState Dispatched.

(** [new ShortcutsState()] *)
Definition new : ShortcutsState :=
  {| shortcuts := JsObject.empty; shortcutsList := [];
     runningShortcuts := ∅; reorderableShortcuts := [] |}.

Definition getPublicState (st : ShortcutsState) : PublicShortcutsState :=
  {| pub_shortcuts := shortcuts st;
     pub_shortcutsList := shortcutsList st;
     pub_runningShortcuts := runningShortcuts st;
     pub_reorderableShortcuts := reorderableShortcuts st |}.

Definition set_runningShortcuts (r : gset string) (st : ShortcutsState) :=
  {| shortcuts := shortcuts st; shortcutsList := shortcutsList st;
     runningShortcuts := r;
     reorderableShortcuts := reorderableShortcuts st |}.

Definition set_shortcuts (d : ShortcutsDictionary) (st : ShortcutsState) :=
  {| shortcuts := d; shortcutsList := shortcutsList st;
     runningShortcuts := runningShortcuts st;
     reorderableShortcuts := reorderableShortcuts st |}.

Definition set_shortcutsList (l : list Shortcut) (st : ShortcutsState) :=
  {| shortcuts := shortcuts st; shortcutsList := l;
     runningShortcuts := runningShortcuts st;
     reorderableShortcuts := reorderableShortcuts st |}.

Definition set_reorderableShortcuts (l : list ReorderableEntry)
    (st : ShortcutsState) :=
  {| shortcuts := shortcuts st; shortcutsList := shortcutsList st;
     runningShortcuts := runningShortcuts st;
     reorderableShortcuts := l |}.

(** [eventBus.dispatchEvent(new Event(type))]: listeners run now, on the
    state as it is at this point. *)
Definition dispatchEvent (type : string) : M unit :=
  do st <- SW.get;
  SW.emit {| ev_type := type; ev_seen := getPublicState st |}.

Definition forceUpdate : M unit := dispatchEvent "stateUpdate".

Definition setIsRunning (shortcutId : string) (value : bool) : M unit :=
  run (if value
      then SW.modify (fun st =>
             set_runningShortcuts ({[ shortcutId ]} ∪ runningShortcuts st) st)
      else SW.modify (fun st =>
             set_runningShortcuts (runningShortcuts st ∖ {[ shortcutId ]}) st));
  forceUpdate.

(** Comparator of both sorts: [(a, b) => a.position - b.position]. *)
Definition by_position (a b : Shortcut) : Z := position a - position b.
Definition by_entry_position (a b : ReorderableEntry) : Z :=
  entry_position a - entry_position b.

Definition entry_of (shortcut : Shortcut) : ReorderableEntry :=
  {| label := name shortcut; data := shortcut;
     entry_position := position shortcut |}.

(** The [for] loop of [setShortcuts], entered at index [i] with [rest]
    the elements of [shortcutsList] from [i] on. *)
Fixpoint fill_entries (i : nat) (rest : list Shortcut)
    (acc : list ReorderableEntry) : list ReorderableEntry :=
  match rest with
  | [] => acc
  | shortcut :: rest' =>
      fill_entries (S i) rest' (JsArray.assign acc i (entry_of shortcut))
  end.

Definition setShortcuts (d : ShortcutsDictionary) : M unit :=
  run SW.modify (set_shortcuts d);
  run SW.modify (fun st =>
       set_shortcutsList
         (JsArray.sort by_position (JsObject.values (shortcuts st))) st);
  run SW.modify (set_reorderableShortcuts []);
  run SW.modify (fun st =>
       set_reorderableShortcuts
         (fill_entries 0 (shortcutsList st) (reorderableShortcuts st)) st);
  run SW.modify (fun st =>
       set_reorderableShortcuts
         (JsArray.sort by_entry_position (reorderableShortcuts st)) st);
  forceUpdate.
End ShortcutsState.

(** ** Collaborators of the plugin controller *)

(** Entry of the host's application list ([SteamAppDetails]), with the two
    fields [init] reads. *)
Record SteamAppDetails : Type := mkApp {
  unAppID : Z;
  strDisplayName : string
}.

(** [(await PyInterop.getShortcuts()).result]: a dictionary of shortcuts,
    or a string that carries the error. *)
Inductive ShortcutsResult : Type :=
  | ResultString (error : string)
  | ResultShortcuts (d : ShortcutsDictionary).

(** The [InstancesController] is not among the sources.  The plugin
    controller uses its [instances] table and four of its methods; they
    are the interface below, each method a function on the controller's
    own state [IC].  [Callback] is the type of the [onExit] functions
    handed to [launchInstance]. *)
Class InstancesController : Type := {
  IC : Type;
  Inst : Type;
  Callback : Type;
  instances : IC -> JsObject.t Inst;
  createInstance : string -> Shortcut -> string -> string -> IC -> bool * IC;
  launchInstance : string -> Callback -> IC -> bool * IC;
  stopInstance : string -> IC -> bool * IC;
  killInstance : string -> IC -> bool * IC
}.

Section PluginController.
Context `{InstancesController}.

(** What a method of the plugin controller does to the outside, in
    program order. *)
Inductive Effect : Type :=
  | ELog (message : string)
  | EToast (title message : string)
  | EDispatch (d : Dispatched)
  | ERemoveShortcutById (appId : Z)
  | EConnect
  | EHooksInit (shortcuts : ShortcutsDictionary)
  | ECreateInstance (pluginName : string) (shortcut : Shortcut)
      (path startDir : string)
  | ELaunchInstance (shortcutId : string) (onExit : Callback)
  | EStopInstance (shortcutId : string)
  | EKillInstance (shortcutId : string).

(** The static fields of [PluginController] the modelled methods touch. *)
Record PluginController : Type := mkController {
  shortcutName : string;
  runnerPath : string;
  startDir : string;
  state : ShortcutsState;
  instancesController : IC
}.

Definition PM := SW.M PluginController Effect.

Definition set_state (st : ShortcutsState) (pc : PluginController) :=
  {| shortcutName := shortcutName pc; runnerPath := runnerPath pc;
     startDir := startDir pc; state := st;
     instancesController := instancesController pc |}.

Definition set_instancesController (ic : IC) (pc : PluginController) :=
  {| shortcutName := shortcutName pc; runnerPath := runnerPath pc;
     startDir := startDir pc; state := state pc;
     instancesController := ic |}.

Definition set_shortcutName (n : string) (pc : PluginController) :=
  {| shortcutName := n; runnerPath := runnerPath pc;
     startDir := startDir pc; state := state pc;
     instancesController := instancesController pc |}.

Definition set_paths (runner dir : string) (pc : PluginController) :=
  {| shortcutName := shortcutName pc; runnerPath := runner;
     startDir := dir; state := state pc;
     instancesController := instancesController pc |}.

(** [PyInterop.log(message)] *)
Definition log (message : string) : PM unit := SW.emit (ELog message).

(** A method of [this.state], run on the [state] field; what it
    dispatches on the event bus joins the trace. *)
Definition on_state {A} (m : ShortcutsState.M A) : PM A :=
  fun pc =>
    let '(a, st, ds) := m (state pc) in
    (a, set_state st pc, map EDispatch ds).

(** A method of [this.instancesController], run on that field, with the
    call itself recorded first. *)
Definition on_instances {A} (call : Effect) (m : IC -> A * IC) : PM A :=
  fun pc =>
    let '(a, ic) := m (instancesController pc) in
    (a, set_instancesController ic pc, [call]).

(** The double quote that opens and closes both paths (they are handed
    to a shell). *)
Definition dquote : string :=
  String (Ascii.Ascii false true false false false true false false)
    EmptyString.

(** The template literals of [initOnLogin] for a given
    [res.result]. *)
Definition runnerPath_for (home : string) : string :=
  dquote +:+ "/home/" +:+ home +:+
  "/homebrew/plugins/bash-shortcuts/shortcutsRunner.sh" +:+ dquote.

Definition startDir_for (home : string) : string :=
  dquote +:+ "/home/" +:+ home +:+
  "/homebrew/plugins/bash-shortcuts/" +:+ dquote.

(** [PluginController.setup(server, state)], as far as the fields
    above go.  The field initialisers of the class give the two paths;
    [shortcutName] has no string until [init] assigns one. *)
Definition setup (st : ShortcutsState) (ic : IC) : PluginController :=
  {| shortcutName := "";
     runnerPath := runnerPath_for "deck";
     startDir := startDir_for "deck";
     state := st;
     instancesController := ic |}.

(** The [then] callback of [initOnLogin], run when
    [PyInterop.getHomeDir()] resolves to [res]. *)
Definition initOnLogin_resolved (res_result : string) : PM unit :=
  SW.modify (set_paths (runnerPath_for res_result)
                       (startDir_for res_result)).

(** The loop of [init] over [oldInstances]. *)
Fixpoint remove_old (oldInstances : list SteamAppDetails) : PM unit :=
  match oldInstances with
  | [] => SW.ret tt
  | instance :: rest =>
      run SW.emit (ERemoveShortcutById (unAppID instance));
      remove_old rest
  end.

(** [init(name)].  [steamShortcuts] is what
    [shortcutsController.getShortcuts()] resolves to and [fetched] what
    [PyInterop.getShortcuts()] does. *)
Definition init (name : string) (steamShortcuts : list SteamAppDetails)
    (fetched : ShortcutsResult) : PM unit :=
  run log "PluginController initializing...";
  run SW.modify (set_shortcutName name);
  let oldInstances :=
    List.filter
      (fun shortcut =>
         String.prefix "Bash Shortcuts - Instance" (strDisplayName shortcut))
      steamShortcuts in
  run (if (0 <? length oldInstances)%nat
       then remove_old oldInstances
       else SW.ret tt);
  run SW.emit EConnect;
  run (match fetched with
       | ResultString shortcuts =>
           log ("Failed to get shortcuts for hooks. Error: " +:+ shortcuts)
       | ResultShortcuts shortcuts =>
           SW.emit (EHooksInit shortcuts)
       end);
  log "PluginController initialized.".

(** The callback [initOnLogin] registers for the change of authentication
    state: [servicesReady] is what [waitForServicesToInitialize()] resolves
    to. *)
Definition initOnLogin_loggedIn (username : string) (servicesReady : bool)
    (steamShortcuts : list SteamAppDetails) (fetched : ShortcutsResult)
    : PM unit :=
  run log ("user logged in. [DEBUG INFO] username: " +:+ username +:+ ";");
  if servicesReady
  then init "Bash Shortcuts" steamShortcuts fetched
  else SW.emit (EToast "Error" "Failed to initialize, try restarting.").

Definition getShortcutById (shortcutId : string)
    : PM (JsObject.Lookup Shortcut) :=
  do pc <- SW.get;
  SW.ret (JsObject.lookup shortcutId
            (pub_shortcuts (ShortcutsState.getPublicState (state pc)))).

Definition setIsRunning (shortcutId : string) (value : bool) : PM unit :=
  on_state (ShortcutsState.setIsRunning shortcutId value).

Definition launchShortcut (shortcut : Shortcut) (onExit : Callback)
    : PM bool :=
  do pc <- SW.get;
  do createdInstance <-
    on_instances
      (ECreateInstance (shortcutName pc) shortcut (runnerPath pc)
         (startDir pc))
      (createInstance (shortcutName pc) shortcut (runnerPath pc)
         (startDir pc));
  if createdInstance : bool then
    run log ("Created Instance for shortcut " +:+ name shortcut);
    on_instances (ELaunchInstance (id shortcut) onExit)
      (launchInstance (id shortcut) onExit)
  else SW.ret false.

Definition closeShortcut (shortcut : Shortcut) : PM bool :=
  do stoppedInstance <-
    on_instances (EStopInstance (id shortcut))
      (stopInstance (id shortcut));
  if stoppedInstance : bool then
    run log ("Stopped Instance for shortcut " +:+ name shortcut);
    on_instances (EKillInstance (id shortcut)) (killInstance (id shortcut))
  else
    run log ("Failed to stop instance for shortcut " +:+ name shortcut
             +:+ ". Id: " +:+ id shortcut);
    SW.ret false.

Definition killShortcut (shortcut : Shortcut) : PM bool :=
  on_instances (EKillInstance (id shortcut)) (killInstance (id shortcut)).

Definition checkIfRunning (shorcutId : string) : PM bool :=
  do pc <- SW.get;
  SW.ret (JsArray.includes
            (JsObject.keys (instances (instancesController pc)))
            shorcutId).

(** Work of one [checkIfRunning] call: the keys [Object.keys] copies
    into the array, then the elements [includes] compares. *)
Definition checkIfRunning_steps (shorcutId : string)
    (pc : PluginController) : nat :=
  let keys := JsObject.keys (instances (instancesController pc)) in
  (length keys + JsArray.includes_steps keys shorcutId)%nat.
End PluginController.


(** ** The instance registry of the specification *)

Module Spec.
Inductive InstanceState : Type := Launching | Running | Exiting | Exited.

Inductive Phase : Type := PreLaunch | PostLaunch | PostExit.

(** Outbound requests of the event channel (section 6). *)
Inductive Request : Type :=
  | RunCommand (shortcutId command runner startDir : string)
  | StopProcess (shortcutId : string)
  | KillProcess (shortcutId : string).

(** The placeholder the host keeps for a launchable identity. *)
Record HostApp : Type := mkHostApp {
  app_identity : nat;
  app_name : string;
  app_path : string;
  app_startDir : string;
  app_command : string
}.

Section WithCallback.
Context {Cb : Type}.

(** Modelled from the spec: the [Instance] record of section 3; the
    class is not among the sources. *)
Record Instance : Type := mkInstance {
  shortcutId : string;
  hostIdentity : nat;
  processHandle : option nat;
  istate : InstanceState;
  exitCallback : option Cb
}.

(** Modelled from the spec: the state the [InstancesController] owns,
    which is not among the sources: the Registry of section 4.2, the
    host's list of identities (4.3), the hook lists and the launches
    they asked for (4.4), the requests sent on the event channel (4.1),
    and the exit callbacks invoked.  [hostAccepts] and [backendReply]
    are what the host and the backend answer to the next request. *)
Record Controller : Type := mkSpec {
  registry : JsObject.t Instance;
  hostApps : list HostApp;
  nextIdentity : nat;
  hookLists : JsObject.t (list string * list string * list string);
  hookLaunches : list (Phase * string * string);
  sent : list Request;
  invoked : list Cb;
  hostAccepts : bool;
  backendReply : option nat
}.

Definition initial : Controller :=
  {| registry := JsObject.empty; hostApps := []; nextIdentity := 0%nat;
     hookLists := JsObject.empty; hookLaunches := []; sent := [];
     invoked := []; hostAccepts := true; backendReply := Some 1%nat |}.

Definition with_registry (r : JsObject.t Instance) (w : Controller) :=
  {| registry := r; hostApps := hostApps w;
     nextIdentity := nextIdentity w; hookLists := hookLists w;
     hookLaunches := hookLaunches w; sent := sent w;
     invoked := invoked w; hostAccepts := hostAccepts w;
     backendReply := backendReply w |}.

Definition with_hostApps (a : list HostApp) (n : nat) (w : Controller) :=
  {| registry := registry w; hostApps := a; nextIdentity := n;
     hookLists := hookLists w; hookLaunches := hookLaunches w;
     sent := sent w; invoked := invoked w;
     hostAccepts := hostAccepts w; backendReply := backendReply w |}.

Definition with_hookLaunches (l : list (Phase * string * string))
    (w : Controller) :=
  {| registry := registry w; hostApps := hostApps w;
     nextIdentity := nextIdentity w; hookLists := hookLists w;
     hookLaunches := l; sent := sent w; invoked := invoked w;
     hostAccepts := hostAccepts w; backendReply := backendReply w |}.

Definition with_sent (l : list Request) (w : Controller) :=
  {| registry := registry w; hostApps := hostApps w;
     nextIdentity := nextIdentity w; hookLists := hookLists w;
     hookLaunches := hookLaunches w; sent := l; invoked := invoked w;
     hostAccepts := hostAccepts w; backendReply := backendReply w |}.

Definition with_invoked (l : list Cb) (w : Controller) :=
  {| registry := registry w; hostApps := hostApps w;
     nextIdentity := nextIdentity w; hookLists := hookLists w;
     hookLaunches := hookLaunches w; sent := sent w; invoked := l;
     hostAccepts := hostAccepts w; backendReply := backendReply w |}.

(** What the environment will answer next; not an operation of the
    controller. *)
Definition with_answers (host : bool) (backend : option nat)
    (w : Controller) :=
  {| registry := registry w; hostApps := hostApps w;
     nextIdentity := nextIdentity w; hookLists := hookLists w;
     hookLaunches := hookLaunches w; sent := sent w;
     invoked := invoked w; hostAccepts := host;
     backendReply := backend |}.

Definition hooks_of (phase : Phase)
    (l : list string * list string * list string) : list string :=
  match phase with
  | PreLaunch => l.1.1
  | PostLaunch => l.1.2
  | PostExit => l.2
  end.

(** Modelled from the spec: [fire(phase, shortcutId)] of section 4.4,
    fire-and-forget: each subscription of [shortcutId] for [phase] asks
    for the launch of its trigger, in list order. *)
Definition fire (phase : Phase) (owner : string) (w : Controller)
    : Controller :=
  match JsObject.get owner (hookLists w) with
  | None => w
  | Some l =>
      with_hookLaunches
        (hookLaunches w ++
         map (fun trigger => (phase, owner, trigger)) (hooks_of phase l))
        w
  end.

Definition remove_identity (i : nat) (apps : list HostApp) :=
  List.filter (fun a => negb (Nat.eqb (app_identity a) i)) apps.

(** Modelled from the spec: steps 1 to 4 of [launch] (section 4.5),
    the part of a launch the plugin controller asks of
    [createInstance]: the [AlreadyRunning] guard of the Registry, the
    pre-launch hooks, the host identity, the registration in state
    [Launching]. *)
Definition createInstance (pluginName : string) (shortcut : Shortcut)
    (path dir : string) (w : Controller) : bool * Controller :=
  match JsObject.get (id shortcut) (registry w) with
  | Some _ => (false, w)
  | None =>
      let w1 := fire PreLaunch (id shortcut) w in
      if hostAccepts w1 then
        let i := nextIdentity w1 in
        let app :=
          {| app_identity := i; app_name := pluginName; app_path := path;
             app_startDir := dir; app_command := cmd shortcut |} in
        let w2 := with_hostApps (hostApps w1 ++ [app]) (S i) w1 in
        let inst :=
          {| shortcutId := id shortcut; hostIdentity := i;
             processHandle := None; istate := Launching;
             exitCallback := None |} in
        (true,
         with_registry (JsObject.set (id shortcut) inst (registry w2)) w2)
      else (false, w1)
  end.

Definition app_of (i : nat) (apps : list HostApp) : option HostApp :=
  List.find (fun a => Nat.eqb (app_identity a) i) apps.

(** Modelled from the spec: steps 5 to 7 of [launch]: the run request
    on the event channel, then [Running] and the post-launch hooks when
    the backend confirms, back to idle when it does not. *)
Definition launchInstance (sid : string) (onExit : Cb) (w : Controller)
    : bool * Controller :=
  match JsObject.get sid (registry w) with
  | None => (false, w)
  | Some inst =>
      let '(command, runner, dir) :=
        match app_of (hostIdentity inst) (hostApps w) with
        | Some a => (app_command a, app_path a, app_startDir a)
        | None => ("", "", "")
        end in
      let w1 := with_sent (sent w ++ [RunCommand sid command runner dir]) w in
      match backendReply w1 with
      | Some handle =>
          let inst' :=
            {| shortcutId := sid; hostIdentity := hostIdentity inst;
               processHandle := Some handle; istate := Running;
               exitCallback := Some onExit |} in
          (true,
           fire PostLaunch sid
             (with_registry (JsObject.set sid inst' (registry w1)) w1))
      | None =>
          (false,
           with_hostApps
             (remove_identity (hostIdentity inst) (hostApps w1))
             (nextIdentity w1)
             (with_registry (JsObject.remove sid (registry w1)) w1))
      end
  end.

(** Modelled from the spec: [stop] and [kill] of section 4.5: false
    without an Instance, the request to the backend otherwise, and no
    cleanup. *)
Definition stopInstance (sid : string) (w : Controller)
    : bool * Controller :=
  match JsObject.get sid (registry w) with
  | None => (false, w)
  | Some _ => (true, with_sent (sent w ++ [StopProcess sid]) w)
  end.

Definition killInstance (sid : string) (w : Controller)
    : bool * Controller :=
  match JsObject.get sid (registry w) with
  | None => (false, w)
  | Some _ => (true, with_sent (sent w ++ [KillProcess sid]) w)
  end.

(** Modelled from the spec: one exit signal for [sid], from the backend
    or from the host: the first moves [Running] to [Exiting], the
    second cleans up (section 4.5). *)
Definition exitSignal (sid : string) (w : Controller) : Controller :=
  match JsObject.get sid (registry w) with
  | None => w
  | Some inst =>
      match istate inst with
      | Running =>
          let inst' :=
            {| shortcutId := sid; hostIdentity := hostIdentity inst;
               processHandle := processHandle inst; istate := Exiting;
               exitCallback := exitCallback inst |} in
          with_registry (JsObject.set sid inst' (registry w)) w
      | Exiting =>
          let w1 := with_registry (JsObject.remove sid (registry w)) w in
          let w2 :=
            with_hostApps
              (remove_identity (hostIdentity inst) (hostApps w1))
              (nextIdentity w1) w1 in
          let w3 :=
            match exitCallback inst with
            | Some cb => with_invoked (invoked w2 ++ [cb]) w2
            | None => w2
            end in
          fire PostExit sid w3
      | Launching | Exited => w
      end
  end.
End WithCallback.

Arguments Instance : clear implicits.
Arguments Controller : clear implicits.

(** The specification's controller behind the interface the plugin
    controller uses. *)
#[export] Instance controller (Cb : Type) : InstancesController :=
  Build_InstancesController (Controller Cb) (Instance Cb) Cb
    registry createInstance launchInstance stopInstance killInstance.
End Spec.

(** ** Sequences of operations *)

Section Operations.
Context `{InstancesController}.

(** What can happen to a plugin controller between two observations: a
    [setIsRunning] call, a launch, a close, a kill, or a change inside
    the instances controller that no method of the plugin controller
    starts (the exit signals of the backend and of the host). *)
Inductive Op : Type :=
  | OpSetIsRunning (shortcutId : string) (value : bool)
  | OpLaunch (shortcut : Shortcut) (onExit : Callback)
  | OpClose (shortcut : Shortcut)
  | OpKill (shortcut : Shortcut)
  | OpController (change : IC -> IC).

Definition step (pc : PluginController) (op : Op) : PluginController :=
  match op with
  | OpSetIsRunning shortcutId value =>
      SW.final (setIsRunning shortcutId value pc)
  | OpLaunch shortcut onExit => SW.final (launchShortcut shortcut onExit pc)
  | OpClose shortcut => SW.final (closeShortcut shortcut pc)
  | OpKill shortcut => SW.final (killShortcut shortcut pc)
  | OpController change =>
      set_instancesController (change (instancesController pc)) pc
  end.

Definition exec (ops : list Op) (pc : PluginController) : PluginController :=
  fold_left step ops pc.

(** The [setIsRunning] calls of a sequence, applied to a running set. *)
Definition running_after (ops : list Op) (r : gset string) : gset string :=
  fold_left
    (fun r op =>
       match op with
       | OpSetIsRunning shortcutId true => {[ shortcutId ]} ∪ r
       | OpSetIsRunning shortcutId false => r ∖ {[ shortcutId ]}
       | _ => r
       end)
    ops r.

(** The other operations of a sequence, applied to an instances
    controller; [names] are the three static strings a launch passes
    on. *)
Definition controller_step (name runner dir : string) (ic : IC) (op : Op)
    : IC :=
  match op with
  | OpSetIsRunning _ _ => ic
  | OpLaunch shortcut onExit =>
      let '(created, ic1) := createInstance name shortcut runner dir ic in
      if created then (launchInstance (id shortcut) onExit ic1).2 else ic1
  | OpClose shortcut =>
      let '(stopped, ic1) := stopInstance (id shortcut) ic in
      if stopped then (killInstance (id shortcut) ic1).2 else ic1
  | OpKill shortcut => (killInstance (id shortcut) ic).2
  | OpController change => change ic
  end.

Definition controller_after (name runner dir : string) (ops : list Op)
    (ic : IC) : IC :=
  fold_left (controller_step name runner dir) ops ic.

(** The dictionaries handed to [hooksController.init] in a trace. *)
Definition hooks_inits (t : list Effect) : list ShortcutsDictionary :=
  flat_map
    (fun e => match e with EHooksInit d => [d] | _ => [] end) t.

(** The runner path and start directory of every [createInstance] call in
    a trace. *)
Definition created_with (t : list Effect) : list (string * string) :=
  flat_map
    (fun e =>
       match e with
       | ECreateInstance _ _ path dir => [(path, dir)]
       | _ => []
       end) t.

(** The running set the UI is shown agrees with the instances table. *)
Definition running_consistent (pc : PluginController) : Prop :=
  forall shortcutId : string,
    shortcutId ∈ runningShortcuts (state pc) <->
    SW.result (checkIfRunning shortcutId pc) = true.
End Operations.


(** ** Inputs used in the examples *)

Module Examples.
Definition blank (i n c : string) (p : Z) : Shortcut :=
  {| id := i; name := n; cmd := c; position := p;
     onPreLaunch := []; onPostLaunch := []; onPostExit := [] |}.

Definition s1 : Shortcut := blank "s1" "Sleep" "sleep 5" 2.
Definition s2 : Shortcut := blank "s2" "List" "ls" 0.
Definition s3 : Shortcut := blank "s3" "Echo" "echo hi" 2.

Definition dict : ShortcutsDictionary := [("s1", s1); ("s2", s2); ("s3", s3)].

(** A plugin controller on the specification's registry, after [setup]. *)
Definition pc0 : @PluginController (Spec.controller unit) :=
  setup (H := Spec.controller unit) ShortcutsState.new Spec.initial.

(** The same once [s1] was launched. *)
Definition pc1 : @PluginController (Spec.controller unit) :=
  SW.final (launchShortcut (H := Spec.controller unit) s1 tt pc0).

(** A registry with [n] instances, under keys of lengths 1 to [n]. *)
Fixpoint key (n : nat) : string :=
  match n with
  | O => ""
  | S m => String "k"%char (key m)
  end.

Fixpoint crowded (n : nat) : JsObject.t (Spec.Instance unit) :=
  match n with
  | O => []
  | S m =>
      (key n,
       {| Spec.shortcutId := key n; Spec.hostIdentity := m;
          Spec.processHandle := None; Spec.istate := Spec.Running;
          Spec.exitCallback := None |}) :: crowded m
  end.

Definition pc_crowded (n : nat) : @PluginController (Spec.controller unit) :=
  setup (H := Spec.controller unit) ShortcutsState.new
    (Spec.with_registry (crowded n) Spec.initial).
End Examples.

(** ** More about traces and sequences *)

Section MoreOperations.
Context `{InstancesController}.

(** The messages handed to [PyInterop.log] in a trace. *)
Definition logged (t : list Effect) : list string :=
  flat_map (fun e => match e with ELog m => [m] | _ => [] end) t.

(** The application ids handed to [removeShortcutById] in a trace. *)
Definition removed (t : list Effect) : list Z :=
  flat_map
    (fun e => match e with ERemoveShortcutById a => [a] | _ => [] end) t.

(** The events dispatched on the event bus in a trace. *)
Definition dispatched (t : list Effect) : list Dispatched :=
  flat_map (fun e => match e with EDispatch d => [d] | _ => [] end) t.

(** The instances controller's methods called in a trace, by name. *)
Definition instance_calls (t : list Effect) : list string :=
  flat_map
    (fun e =>
       match e with
       | ECreateInstance _ _ _ _ => ["createInstance"]
       | ELaunchInstance _ _ => ["launchInstance"]
       | EStopInstance _ => ["stopInstance"]
       | EKillInstance _ => ["killInstance"]
       | _ => []
       end) t.

(** The value of the last [setIsRunning] call for [shortcutId] in a
    sequence, if there is one. *)
Fixpoint last_setIsRunning (shortcutId : string) (ops : list Op)
    : option bool :=
  match ops with
  | [] => None
  | op :: ops' =>
      match last_setIsRunning shortcutId ops' with
      | Some value => Some value
      | None =>
          match op with
          | OpSetIsRunning shortcutId' value =>
              if String.eqb shortcutId' shortcutId then Some value else None
          | _ => None
          end
      end
  end.
End MoreOperations.

(** ** ShortcutsContextProvider *)

Module ShortcutsContextProvider.
(** The two functions the context hands to the components; each calls the
    method of the same name of [shortcutsStateClass]. *)
Inductive Call : Type :=
  | CallSetShortcuts (shortcuts : ShortcutsDictionary)
  | CallSetIsRunning (shortcutId : string) (value : bool).

Definition call (c : Call) : ShortcutsState.M unit :=
  match c with
  | CallSetShortcuts shortcuts => ShortcutsState.setShortcuts shortcuts
  | CallSetIsRunning shortcutId value =>
      ShortcutsState.setIsRunning shortcutId value
  end.

(** [useState({...shortcutsStateClass.getPublicState()})] at the first
    render. *)
Definition initial (shortcutsStateClass : ShortcutsState)
    : PublicShortcutsState :=
  ShortcutsState.getPublicState shortcutsStateClass.

(** The listener [onUpdate], run for a dispatched event: it stores a copy
    of what [getPublicState] returns at that moment. *)
Definition onUpdate (d : Dispatched) : PublicShortcutsState := ev_seen d.

(** Delivery of the events of one call to the listener registered for
    [stateUpdate]. *)
Definition deliver (ds : list Dispatched) (publicState : PublicShortcutsState)
    : PublicShortcutsState :=
  fold_left
    (fun publicState d =>
       if String.eqb (ev_type d) "stateUpdate" then onUpdate d
       else publicState)
    ds publicState.

(** The class and the provider's [publicState] through a sequence of
    calls, with the listener registered. *)
Definition after (calls : list Call)
    (s : ShortcutsState * PublicShortcutsState)
    : ShortcutsState * PublicShortcutsState :=
  fold_left
    (fun s c =>
       let r := call c s.1 in
       (SW.final r, deliver (SW.trace r) s.2))
    calls s.
End ShortcutsContextProvider.

(** ** AddShortcut *)

Module AddShortcut.
(** The three [useState] cells of the component. *)
Record Form : Type := mkForm {
  ableToSave : bool;
  form_name : string;
  form_cmd : string
}.

(** The cells at the first render. *)
Definition first_render : Form :=
  {| ableToSave := false; form_name := ""; form_cmd := "" |}.

Inductive UiEffect : Type :=
  | EAddShortcut (newShort : Shortcut)
  | EShowToast (message : string)
  | EStateUpdate (d : Dispatched).

(** The backend calls [PyInterop.addShortcut] of a trace. *)
Definition added (t : list UiEffect) : list Shortcut :=
  flat_map (fun e => match e with EAddShortcut s => [s] | _ => [] end) t.

(** The component's cells together with the shortcuts state behind the
    context. *)
Definition M := SW.M (Form * ShortcutsState) UiEffect.

Definition setAbleToSave (v : bool) : M unit :=
  SW.modify (fun s =>
    ({| ableToSave := v; form_name := form_name s.1;
        form_cmd := form_cmd s.1 |}, s.2)).

Definition setName (v : string) : M unit :=
  SW.modify (fun s =>
    ({| ableToSave := ableToSave s.1; form_name := v;
        form_cmd := form_cmd s.1 |}, s.2)).

Definition setCmd (v : string) : M unit :=
  SW.modify (fun s =>
    ({| ableToSave := ableToSave s.1; form_name := form_name s.1;
        form_cmd := v |}, s.2)).

(** [setShortcuts] of the context: the method of the class, its events
    joining the trace. *)
Definition setShortcuts (shortcuts : ShortcutsDictionary) : M unit :=
  fun s =>
    let '(a, st, ds) := ShortcutsState.setShortcuts shortcuts s.2 in
    (a, (s.1, st), map EStateUpdate ds).

(** The body of the [useEffect]. *)
Definition effect : M unit :=
  do s <- SW.get;
  setAbleToSave
    (negb (String.eqb (form_name s.1) "") &&
     negb (String.eqb (form_cmd s.1) "")).

Section WithShortcutClass.
(** [new Shortcut(id, name, cmd)]: the class is not among the sources, its
    constructor is a parameter. *)
Context (newShortcut : string -> string -> string -> Shortcut).

(** [saveShortcut()], in a render that read [shortcuts] from the context;
    [uuid] is what [uuidv4()] returns. *)
Definition saveShortcut (uuid : string) (shortcuts : ShortcutsDictionary)
    : M unit :=
  do s <- SW.get;
  let newShort := newShortcut uuid (form_name s.1) (form_cmd s.1) in
  run SW.emit (EAddShortcut newShort);
  run setName "";
  run setCmd "";
  run SW.emit (EShowToast "Shortcut Saved!");
  let ref := shortcuts in
  let ref := JsObject.assign (id newShort) newShort ref in
  setShortcuts ref.

(** What the user does to the component. *)
Inductive Event : Type :=
  | ChangeName (value : string)
  | ChangeCmd (value : string)
  | ClickSave (uuid : string).

(** One event on a settled render: the handler runs (the button does
    nothing while [disabled]), then, if [name] or [cmd] changed, the
    effect.  The render reads [shortcuts] from a context that mirrors the
    class. *)
Definition handle (ev : Event) : M unit :=
  do before <- SW.get;
  run (match ev with
       | ChangeName value => setName value
       | ChangeCmd value => setCmd value
       | ClickSave uuid =>
           if ableToSave before.1
           then saveShortcut uuid (shortcuts before.2)
           else SW.ret tt
       end);
  do now <- SW.get;
  if String.eqb (form_name before.1) (form_name now.1) &&
     String.eqb (form_cmd before.1) (form_cmd now.1)
  then SW.ret tt
  else effect.

Fixpoint session (evs : list Event) : M unit :=
  match evs with
  | [] => SW.ret tt
  | ev :: evs' => run handle ev; session evs'
  end.
End WithShortcutClass.

(** The component once mounted: the first render, then the effect. *)
Definition mounted (st : ShortcutsState) : Form * ShortcutsState :=
  SW.final (effect (first_render, st)).
End AddShortcut.

Module MoreExamples.
(** A constructor for the examples: the position and the hooks are left
    at zero and empty. *)
Definition newShortcut (i n c : string) : Shortcut := Examples.blank i n c 0.

Definition far : Shortcut := Examples.blank "s4" "Far" "true" 7.
Definition near : Shortcut := Examples.blank "s5" "Near" "false" 1.
End MoreExamples.

(** * Properties *)

(** ** Arrays and objects *)

Lemma includes_elem_of (arr : list string) (x : string) :
  JsArray.includes arr x = true <-> x ∈ arr.
Proof.
  induction arr as [|y arr IH]; simpl.
  - split; [discriminate | intros Hin; inversion Hin].
  - destruct (String.eqb_spec y x) as [->|Hne].
    + split; [intros _; left | reflexivity].
    + rewrite IH. split; [intros Hin; now right |].
      intros Hin. inversion Hin; subst; [congruence | assumption].
Qed.

Lemma includes_steps_le (arr : list string) (x : string) :
  (JsArray.includes_steps arr x <= length arr)%nat.
Proof.
  induction arr as [|y arr IH]; simpl; [lia |].
  destruct (String.eqb y x); lia.
Qed.

Lemma includes_steps_absent (arr : list string) (x : string) :
  x ∉ arr -> JsArray.includes_steps arr x = length arr.
Proof.
  induction arr as [|y arr IH]; simpl; intros Hnotin; [reflexivity |].
  destruct (String.eqb_spec y x) as [->|Hne].
  - exfalso. apply Hnotin. left.
  - f_equal. apply IH. intros Hin. apply Hnotin. now right.
Qed.

Lemma get_keys {V} (k : string) (o : JsObject.t V) :
  is_Some (JsObject.get k o) <-> k ∈ JsObject.keys o.
Proof.
  induction o as [|[k' v] o IH]; simpl.
  - split; [intros [? ?]; discriminate | intros Hin; inversion Hin].
  - destruct (String.eqb_spec k k') as [->|Hne].
    + split; [intros _; left | intros _; eauto].
    + rewrite IH. split; [intros Hin; now right |].
      intros Hin. inversion Hin; subst; [congruence | assumption].
Qed.

Lemma get_none_keys {V} (k : string) (o : JsObject.t V) :
  JsObject.get k o = None <-> k ∉ JsObject.keys o.
Proof.
  rewrite <- get_keys. destruct (JsObject.get k o); split; intros Hx.
  - discriminate.
  - exfalso. apply Hx. eauto.
  - intros [? ?]; discriminate.
  - reflexivity.
Qed.









(** ** The stable sort by an integer key *)

Section SortByKey.
Context {A : Type} (key : A -> Z).

Let cmp (a b : A) : Z := key a - key b.
Let ascending (a b : A) : Prop := key a <= key b.

Lemma insert_Permutation (x : A) (l : list A) :
  JsArray.insert cmp x l ≡ₚ x :: l.
Proof.
  induction l as [|y l IH]; simpl; [reflexivity |].
  destruct (Z.leb (cmp x y) 0); [reflexivity |].
  rewrite IH. apply Permutation_swap.
Qed.

Lemma sort_Permutation (l : list A) : JsArray.sort cmp l ≡ₚ l.
Proof.
  induction l as [|x l IH]; simpl; [reflexivity |].
  rewrite insert_Permutation. now rewrite IH.
Qed.

Lemma insert_Sorted (x : A) (l : list A) :
  Sorted ascending l -> Sorted ascending (JsArray.insert cmp x l).
Proof.
  induction 1 as [|y l Hsorted IH Hhd]; simpl.
  - repeat constructor.
  - destruct (Z.leb_spec (cmp x y) 0) as [Hle|Hgt].
    + constructor.
      * now constructor.
      * constructor. unfold ascending, cmp in *. lia.
    + constructor; [assumption |].
      destruct Hhd as [|z l Hyz]; simpl.
      * constructor. unfold ascending, cmp in *. lia.
      * destruct (Z.leb (cmp x z) 0); constructor;
          unfold ascending, cmp in *; lia.
Qed.

Lemma sort_Sorted (l : list A) : Sorted ascending (JsArray.sort cmp l).
Proof.
  induction l as [|x l IH]; simpl; [constructor | now apply insert_Sorted].
Qed.

Lemma sort_StronglySorted (l : list A) :
  StronglySorted ascending (JsArray.sort cmp l).
Proof.
  apply Sorted.Sorted_StronglySorted; [| apply sort_Sorted].
  intros a b c. unfold ascending. lia.
Qed.

(** Elements with one key keep the order they came in. *)
Lemma insert_stable (k : Z) (x : A) (l : list A) :
  filter (fun a => key a = k) (JsArray.insert cmp x l) =
  filter (fun a => key a = k) (x :: l).
Proof.
  induction l as [|y l IH]; simpl; [reflexivity |].
  destruct (Z.leb_spec (cmp x y) 0) as [Hle|Hgt]; [reflexivity |].
  rewrite filter_cons, IH, !filter_cons. unfold cmp in Hgt.
  destruct (decide (key y = k)), (decide (key x = k)); try reflexivity; lia.
Qed.

Lemma sort_stable (k : Z) (l : list A) :
  filter (fun a => key a = k) (JsArray.sort cmp l) =
  filter (fun a => key a = k) l.
Proof.
  induction l as [|x l IH]; simpl; [reflexivity |].
  now rewrite insert_stable, !filter_cons, IH.
Qed.

Lemma sort_Sorted_id (l : list A) :
  Sorted ascending l -> JsArray.sort cmp l = l.
Proof.
  induction 1 as [|x l Hsorted IH Hhd]; simpl; [reflexivity |].
  rewrite IH. destruct Hhd as [|y l Hxy]; simpl; [reflexivity |].
  destruct (Z.leb_spec (cmp x y) 0) as [_|Hgt]; [reflexivity |].
  unfold ascending, cmp in *. lia.
Qed.
End SortByKey.

(** ** ShortcutsState *)

Lemma fill_entries_app (rest : list Shortcut) (acc : list ReorderableEntry) :
  ShortcutsState.fill_entries (length acc) rest acc =
  acc ++ map ShortcutsState.entry_of rest.
Proof.
  revert acc. induction rest as [|shortcut rest IH]; intros acc; simpl.
  - now rewrite app_nil_r.
  - unfold JsArray.assign.
    destruct (decide (length acc < length acc)%nat) as [Hlt|_]; [lia |].
    replace (S (length acc))
      with (length (acc ++ [ShortcutsState.entry_of shortcut]))
      by (rewrite length_app; simpl; lia).
    rewrite IH, <- app_assoc. reflexivity.
Qed.

Lemma entries_Sorted (l : list Shortcut) :
  Sorted (fun a b => position a <= position b) l ->
  Sorted (fun a b => entry_position a <= entry_position b)
    (map ShortcutsState.entry_of l).
Proof.
  induction 1 as [|x l Hsorted IH Hhd]; simpl; constructor; [assumption |].
  destruct Hhd; simpl; constructor. assumption.
Qed.

Lemma setShortcuts_final (d : ShortcutsDictionary) (st : ShortcutsState) :
  let sorted := JsArray.sort ShortcutsState.by_position (JsObject.values d) in
  SW.final (ShortcutsState.setShortcuts d st) =
  {| shortcuts := d;
     shortcutsList := sorted;
     runningShortcuts := runningShortcuts st;
     reorderableShortcuts := map ShortcutsState.entry_of sorted |}.
Proof.
  cbv zeta. unfold ShortcutsState.setShortcuts, SW.final, SW.bind, SW.modify.
  simpl.
  change (ShortcutsState.fill_entries 0 ?l [])
    with (ShortcutsState.fill_entries (length (@nil ReorderableEntry)) l []).
  rewrite fill_entries_app. simpl.
  unfold ShortcutsState.set_reorderableShortcuts. simpl. f_equal.
  apply (sort_Sorted_id entry_position).
  apply entries_Sorted, (sort_Sorted position).
Qed.

(** C8. After [setShortcuts(d)] the dictionary is [d]; [shortcutsList] holds
    the values of [d], each once, in ascending order of [position], shortcuts
    with equal positions in the order [Object.values] gave them;
    [reorderableShortcuts] has the same length, its entry at every index is
    built from the shortcut at that index ([label] its name, [data] the
    shortcut, [position] its position), and it is in ascending order of
    position too.  Nothing asks the positions to be contiguous or distinct. *)
Theorem setShortcuts_sorted_by_position
    (d : ShortcutsDictionary) (st : ShortcutsState) :
  let st' := SW.final (ShortcutsState.setShortcuts d st) in
  shortcuts st' = d /\
  shortcutsList st' ≡ₚ JsObject.values d /\
  StronglySorted (fun a b => position a <= position b) (shortcutsList st') /\
  (forall p : Z,
     filter (fun s => position s = p) (shortcutsList st') =
     filter (fun s => position s = p) (JsObject.values d)) /\
  length (reorderableShortcuts st') = length (shortcutsList st') /\
  (forall (i : nat) (s : Shortcut),
     shortcutsList st' !! i = Some s ->
     exists e : ReorderableEntry,
       reorderableShortcuts st' !! i = Some e /\
       label e = name s /\ data e = s /\ entry_position e = position s) /\
  StronglySorted (fun a b => entry_position a <= entry_position b)
    (reorderableShortcuts st').
Proof.
  cbv zeta. rewrite setShortcuts_final. simpl.
  repeat split.
  - apply (sort_Permutation position).
  - apply (sort_StronglySorted position).
  - intros p. apply (sort_stable position).
  - apply length_map.
  - intros i s Hi. exists (ShortcutsState.entry_of s).
    split; [| repeat split].
    change (map ShortcutsState.entry_of ?l) with (ShortcutsState.entry_of <$> l).
    rewrite list_lookup_fmap, Hi. reflexivity.
  - apply Sorted.Sorted_StronglySorted.
    + intros a b c. lia.
    + apply entries_Sorted, (sort_Sorted position).
Qed.

Lemma setShortcuts_sorted_by_position_witness :
  exists e : ReorderableEntry,
    reorderableShortcuts
      (SW.final (ShortcutsState.setShortcuts Examples.dict ShortcutsState.new))
      !! 1%nat = Some e /\
    label e = "Sleep" /\ data e = Examples.s1 /\ entry_position e = 2.
Proof.
  destruct (setShortcuts_sorted_by_position Examples.dict ShortcutsState.new)
    as (_ & _ & _ & _ & _ & Hentry & _).
  apply (Hentry 1%nat Examples.s1). reflexivity.
Defined.

Example setShortcuts_ties_keep_order :
  map id (shortcutsList
            (SW.final (ShortcutsState.setShortcuts Examples.dict
                         ShortcutsState.new)))
  = ["s2"; "s1"; "s3"].
Proof. reflexivity. Qed.

Lemma setIsRunning_final (shortcutId : string) (value : bool)
    (st : ShortcutsState) :
  SW.final (ShortcutsState.setIsRunning shortcutId value st) =
  ShortcutsState.set_runningShortcuts
    (if value then {[ shortcutId ]} ∪ runningShortcuts st
     else runningShortcuts st ∖ {[ shortcutId ]}) st.
Proof. destruct value; reflexivity. Qed.

(** C9. [setIsRunning(shortcutId, value)] leaves [shortcutId] in the running
    set exactly when [value] is true, changes the membership of no other id,
    leaves [shortcuts], [shortcutsList] and [reorderableShortcuts] as they
    were, and a second call with the same arguments changes nothing more. *)
Theorem setIsRunning_frame_idempotent
    (shortcutId : string) (value : bool) (st : ShortcutsState) :
  let st' := SW.final (ShortcutsState.setIsRunning shortcutId value st) in
  (shortcutId ∈ runningShortcuts st' <-> value = true) /\
  (forall other : string,
     other <> shortcutId ->
     (other ∈ runningShortcuts st' <-> other ∈ runningShortcuts st)) /\
  shortcuts st' = shortcuts st /\
  shortcutsList st' = shortcutsList st /\
  reorderableShortcuts st' = reorderableShortcuts st /\
  SW.final (ShortcutsState.setIsRunning shortcutId value st') = st'.
Proof.
  cbv zeta. rewrite !setIsRunning_final.
  destruct st as [d l r e]. unfold ShortcutsState.set_runningShortcuts. simpl.
  destruct value; (split; [| split; [| repeat split]]).
  - rewrite elem_of_union, elem_of_singleton. tauto.
  - intros other Hne. rewrite elem_of_union, elem_of_singleton. tauto.
  - f_equal. apply set_eq. intros x.
    rewrite !elem_of_union. tauto.
  - rewrite elem_of_difference, elem_of_singleton.
    split; [tauto | discriminate].
  - intros other Hne. rewrite elem_of_difference, elem_of_singleton. tauto.
  - f_equal. apply set_eq. intros x.
    rewrite !elem_of_difference. tauto.
Qed.

Lemma setIsRunning_frame_idempotent_witness :
  "s2" ∈ runningShortcuts
           (SW.final (ShortcutsState.setIsRunning "s1" false
              (ShortcutsState.set_runningShortcuts {[ "s1"; "s2" ]}
                 ShortcutsState.new))) <->
  "s2" ∈ runningShortcuts
           (ShortcutsState.set_runningShortcuts {[ "s1"; "s2" ]}
              ShortcutsState.new).
Proof.
  apply (setIsRunning_frame_idempotent "s1" false
           (ShortcutsState.set_runningShortcuts {[ "s1"; "s2" ]}
              ShortcutsState.new)).
  discriminate.
Defined.

(** C10. Each of the two mutators of [ShortcutsState] dispatches one event,
    of type [stateUpdate], and dispatches it last: what a listener reads
    through [getPublicState] during the notification is the state the call
    ends in. *)
Theorem mutations_dispatch_one_stateUpdate :
  (forall (shortcutId : string) (value : bool) (st : ShortcutsState),
     let r := ShortcutsState.setIsRunning shortcutId value st in
     SW.trace r =
     [ {| ev_type := "stateUpdate";
          ev_seen := ShortcutsState.getPublicState (SW.final r) |} ]) /\
  (forall (d : ShortcutsDictionary) (st : ShortcutsState),
     let r := ShortcutsState.setShortcuts d st in
     SW.trace r =
     [ {| ev_type := "stateUpdate";
          ev_seen := ShortcutsState.getPublicState (SW.final r) |} ]).
Proof.
  split.
  - intros shortcutId [] st; reflexivity.
  - intros d st. reflexivity.
Qed.

(** ** The plugin controller, over any instances controller *)

Section ControllerFacts.
Context `{InstancesController}.

Lemma launchShortcut_eq (shortcut : Shortcut) (onExit : Callback)
    (pc : PluginController) :
  launchShortcut shortcut onExit pc =
  let call :=
    ECreateInstance (shortcutName pc) shortcut (runnerPath pc) (startDir pc) in
  let created :=
    createInstance (shortcutName pc) shortcut (runnerPath pc) (startDir pc)
      (instancesController pc) in
  if created.1 then
    let launched := launchInstance (id shortcut) onExit created.2 in
    (launched.1, set_instancesController launched.2 pc,
     [call; ELog ("Created Instance for shortcut " +:+ name shortcut);
      ELaunchInstance (id shortcut) onExit])
  else (false, set_instancesController created.2 pc, [call]).
Proof.
  unfold launchShortcut, SW.bind, SW.get, on_instances, log, SW.emit, SW.ret.
  cbv zeta. simpl.
  destruct (createInstance _ _ _ _ _) as [[] ic1]; simpl; [| reflexivity].
  destruct (launchInstance _ _ _) as [launched ic2]; reflexivity.
Qed.

Lemma closeShortcut_eq (shortcut : Shortcut) (pc : PluginController) :
  closeShortcut shortcut pc =
  let stopped := stopInstance (id shortcut) (instancesController pc) in
  if stopped.1 then
    let killed := killInstance (id shortcut) stopped.2 in
    (killed.1, set_instancesController killed.2 pc,
     [EStopInstance (id shortcut);
      ELog ("Stopped Instance for shortcut " +:+ name shortcut);
      EKillInstance (id shortcut)])
  else
    (false, set_instancesController stopped.2 pc,
     [EStopInstance (id shortcut);
      ELog ("Failed to stop instance for shortcut " +:+ name shortcut
            +:+ ". Id: " +:+ id shortcut)]).
Proof.
  unfold closeShortcut, SW.bind, on_instances, log, SW.emit, SW.ret.
  cbv zeta. simpl.
  destruct (stopInstance _ _) as [[] ic1]; simpl; [| reflexivity].
  destruct (killInstance _ _) as [killed ic2]; reflexivity.
Qed.

Lemma set_instancesController_same (pc : PluginController) :
  set_instancesController (instancesController pc) pc = pc.
Proof. now destruct pc. Qed.

Lemma checkIfRunning_eq (shorcutId : string) (pc : PluginController) :
  checkIfRunning shorcutId pc =
  (JsArray.includes (JsObject.keys (instances (instancesController pc)))
     shorcutId, pc, []).
Proof. reflexivity. Qed.

(** Every operation leaves the three static strings alone; [setIsRunning]
    alone touches the shortcuts state, and then only the running set; the
    instances controller moves as [controller_step] says. *)
Lemma step_effect (pc : PluginController) (op : Op) :
  shortcutName (step pc op) = shortcutName pc /\
  runnerPath (step pc op) = runnerPath pc /\
  startDir (step pc op) = startDir pc /\
  runningShortcuts (state (step pc op)) =
    running_after [op] (runningShortcuts (state pc)) /\
  instancesController (step pc op) =
    controller_step (shortcutName pc) (runnerPath pc) (startDir pc)
      (instancesController pc) op.
Proof.
  destruct op as [sid value|shortcut onExit|shortcut|shortcut|change]; simpl.
  - destruct value; repeat split; reflexivity.
  - rewrite launchShortcut_eq. cbv zeta.
    destruct (createInstance _ _ _ _ _) as [[] ic1]; simpl;
      [destruct (launchInstance _ _ _) as [launched ic2] |];
      repeat split; reflexivity.
  - rewrite closeShortcut_eq. cbv zeta.
    destruct (stopInstance _ _) as [[] ic1]; simpl;
      [destruct (killInstance _ _) as [killed ic2] |];
      repeat split; reflexivity.
  - unfold killShortcut, on_instances.
    destruct (killInstance _ _) as [killed ic2]; repeat split; reflexivity.
  - repeat split; reflexivity.
Qed.

Lemma exec_effect (ops : list Op) (pc : PluginController) :
  shortcutName (exec ops pc) = shortcutName pc /\
  runnerPath (exec ops pc) = runnerPath pc /\
  startDir (exec ops pc) = startDir pc /\
  runningShortcuts (state (exec ops pc)) =
    running_after ops (runningShortcuts (state pc)) /\
  instancesController (exec ops pc) =
    controller_after (shortcutName pc) (runnerPath pc) (startDir pc) ops
      (instancesController pc).
Proof.
  revert pc. induction ops as [|op ops IH]; intros pc.
  - repeat split; reflexivity.
  - destruct (step_effect pc op) as (Hn & Hr & Hd & Hrun & Hic).
    destruct (IH (step pc op)) as (Hn' & Hr' & Hd' & Hrun' & Hic').
    unfold exec, running_after, controller_after in *. simpl.
    rewrite Hn', Hr', Hd', Hrun', Hic', Hn, Hr, Hd, Hrun, Hic.
    repeat split; reflexivity.
Qed.



Lemma remove_old_eq (oldInstances : list SteamAppDetails)
    (pc : PluginController) :
  remove_old oldInstances pc =
  (tt, pc, map (fun instance => ERemoveShortcutById (unAppID instance))
             oldInstances).
Proof.
  induction oldInstances as [|instance rest IH]; simpl; [reflexivity |].
  unfold SW.bind, SW.emit. now rewrite IH.
Qed.

Lemma init_trace (name : string) (steamShortcuts : list SteamAppDetails)
    (fetched : ShortcutsResult) (pc : PluginController) :
  SW.trace (init name steamShortcuts fetched pc) =
  ELog "PluginController initializing..." ::
  map (fun instance => ERemoveShortcutById (unAppID instance))
    (List.filter
       (fun shortcut =>
          String.prefix "Bash Shortcuts - Instance" (strDisplayName shortcut))
       steamShortcuts) ++
  [ EConnect;
    match fetched with
    | ResultString shortcuts =>
        ELog ("Failed to get shortcuts for hooks. Error: " +:+ shortcuts)
    | ResultShortcuts shortcuts => EHooksInit shortcuts
    end;
    ELog "PluginController initialized." ].
Proof.
  unfold init, SW.trace, SW.bind, log, SW.emit, SW.modify. cbv zeta.
  generalize (List.filter
    (fun shortcut =>
       String.prefix "Bash Shortcuts - Instance" (strDisplayName shortcut))
    steamShortcuts).
  intros [|instance rest].
  - destruct fetched; reflexivity.
  - cbn [length Nat.ltb Nat.leb]. rewrite remove_old_eq.
    destruct fetched; reflexivity.
Qed.

Lemma hooks_inits_removals (l : list SteamAppDetails) :
  hooks_inits
    (map (fun instance => ERemoveShortcutById (unAppID instance)) l) = [].
Proof. induction l; simpl; [reflexivity | assumption]. Qed.

Lemma hooks_inits_app (t1 t2 : list Effect) :
  hooks_inits (t1 ++ t2) = hooks_inits t1 ++ hooks_inits t2.
Proof. apply flat_map_app. Qed.

Lemma hooks_inits_absent (t : list Effect) (d : ShortcutsDictionary) :
  hooks_inits t = [] -> EHooksInit d ∉ t.
Proof.
  induction t as [|e t IH]; simpl; intros Hnil Hin; [inversion Hin |].
  inversion Hin; subst; simpl in Hnil; [discriminate |].
  apply app_eq_nil in Hnil as [_ Hnil]. now apply IH.
Qed.
End ControllerFacts.

(** ** The specification's registry *)

Section SpecFacts.
Context {Cb : Type}.
Implicit Types (w : Spec.Controller Cb) (sid : string).

Lemma fire_frame (phase : Spec.Phase) (owner : string) w :
  Spec.registry (Spec.fire phase owner w) = Spec.registry w /\
  Spec.hostApps (Spec.fire phase owner w) = Spec.hostApps w /\
  Spec.nextIdentity (Spec.fire phase owner w) = Spec.nextIdentity w /\
  Spec.sent (Spec.fire phase owner w) = Spec.sent w /\
  Spec.hostAccepts (Spec.fire phase owner w) = Spec.hostAccepts w.
Proof.
  unfold Spec.fire. destruct (JsObject.get owner (Spec.hookLists w));
    repeat split; reflexivity.
Qed.

(** A creation that fails registers nothing, creates no identity and sends
    nothing to the backend. *)
Lemma createInstance_failed (pluginName : string) (shortcut : Shortcut)
    (path dir : string) w :
  (Spec.createInstance pluginName shortcut path dir w).1 = false ->
  let w' := (Spec.createInstance pluginName shortcut path dir w).2 in
  Spec.registry w' = Spec.registry w /\
  Spec.hostApps w' = Spec.hostApps w /\
  Spec.sent w' = Spec.sent w.
Proof.
  unfold Spec.createInstance.
  destruct (JsObject.get (id shortcut) (Spec.registry w)); simpl.
  - intros _. repeat split; reflexivity.
  - destruct (fire_frame Spec.PreLaunch (id shortcut) w)
      as (Hr & Ha & _ & Hs & _).
    destruct (Spec.hostAccepts (Spec.fire Spec.PreLaunch (id shortcut) w));
      simpl; [discriminate |].
    intros _. repeat split; assumption.
Qed.






Lemma stopInstance_absent sid w :
  JsObject.get sid (Spec.registry w) = None ->
  Spec.stopInstance sid w = (false, w).
Proof. intros Hget. unfold Spec.stopInstance. now rewrite Hget. Qed.



End SpecFacts.

(** ** The running set and the registry *)

(** C1, as the specification states it, fails: straight after [setup], one
    [setIsRunning("s1", true)] puts [s1] in the running set while the
    instances table has no record for it. *)
Lemma running_set_diverges :
  ~ (forall ops : list (Op (H := Spec.controller unit)),
       running_consistent (exec ops Examples.pc0)).
Proof.
  intros Hall.
  destruct (Hall [OpSetIsRunning (H := Spec.controller unit) "s1" true] "s1")
    as [Hthen _].
  assert (Hfalse : false = true); [| discriminate].
  apply Hthen. simpl.
  apply elem_of_union_l, elem_of_singleton. reflexivity.
Qed.

(** C1, amended.  [checkIfRunning(id)] is true exactly when the instances
    table holds a record for [id].  The running set is stored on its own:
    after any sequence of operations it is the set before, updated by the
    [setIsRunning] calls of the sequence and by nothing else, and the
    instances controller is the one before, updated by the other operations
    and by no [setIsRunning] call. *)
Theorem running_set_follows_setIsRunning `{InstancesController}
    (ops : list Op) (pc : PluginController) :
  runningShortcuts (state (exec ops pc)) =
    running_after ops (runningShortcuts (state pc)) /\
  instancesController (exec ops pc) =
    controller_after (shortcutName pc) (runnerPath pc) (startDir pc) ops
      (instancesController pc) /\
  (forall shortcutId : string,
     SW.result (checkIfRunning shortcutId (exec ops pc)) = true <->
     is_Some (JsObject.get shortcutId
                (instances (instancesController (exec ops pc))))).
Proof.
  destruct (exec_effect ops pc) as (_ & _ & _ & Hrun & Hic).
  repeat split; try assumption.
  - rewrite checkIfRunning_eq. simpl.
    intros Hin. apply get_keys, includes_elem_of, Hin.
  - rewrite checkIfRunning_eq. simpl.
    intros Hsome. apply includes_elem_of, get_keys, Hsome.
Qed.

Example launch_alone_leaves_running_set :
  runningShortcuts (state Examples.pc1) = ∅ /\
  SW.result (checkIfRunning "s1" Examples.pc1) = true.
Proof. split; reflexivity. Qed.

(** ** checkIfRunning *)

Lemma key_length (n : nat) : String.length (Examples.key n) = n.
Proof.
  induction n as [|n IH]; simpl; [reflexivity | now rewrite IH].
Qed.

Lemma crowded_keys (n : nat) :
  JsObject.keys (Examples.crowded (S n)) =
  Examples.key (S n) :: JsObject.keys (Examples.crowded n).
Proof. reflexivity. Qed.

Lemma crowded_keys_short (n : nat) (k : string) :
  k ∈ JsObject.keys (Examples.crowded n) -> (String.length k <= n)%nat.
Proof.
  induction n as [|n IH]; [intros Hin; inversion Hin |].
  rewrite crowded_keys. intros Hin.
  inversion Hin as [|? ? ? Hin']; subst.
  - simpl. rewrite key_length. lia.
  - specialize (IH Hin'). lia.
Qed.

Lemma crowded_keys_length (n : nat) :
  length (JsObject.keys (Examples.crowded n)) = n.
Proof.
  induction n as [|n IH]; [reflexivity |].
  rewrite crowded_keys. simpl. now rewrite IH.
Qed.

Lemma crowded_wf (n : nat) : JsObject.wf (Examples.crowded n).
Proof.
  unfold JsObject.wf. induction n as [|n IH]; [apply NoDup_nil_2 |].
  rewrite crowded_keys. apply NoDup_cons. split; [| assumption].
  intros Hin. apply crowded_keys_short in Hin.
  simpl in Hin. rewrite key_length in Hin. lia.
Qed.

Lemma crowded_no_empty_key (n : nat) :
  "" ∉ JsObject.keys (Examples.crowded n).
Proof.
  induction n as [|n IH]; [intros Hin; inversion Hin |].
  rewrite crowded_keys. intros Hin.
  inversion Hin as [|? ? ? Hin']; subst; first [discriminate | contradiction].
Qed.

(** C4, as the specification states it, fails in its last part: no constant
    bounds the work of [checkIfRunning], even over tables with one record per
    key; on a table of [n] records that lacks the id it copies [n] keys and
    compares [n] of them. *)
Lemma checkIfRunning_not_constant_time :
  ~ (exists bound : nat,
       forall (pc : PluginController (H := Spec.controller unit))
              (shorcutId : string),
         JsObject.wf (instances (instancesController pc)) ->
         (checkIfRunning_steps shorcutId pc <= bound)%nat).
Proof.
  intros [bound Hbound].
  specialize (Hbound (Examples.pc_crowded (S bound)) "" (crowded_wf (S bound))).
  unfold checkIfRunning_steps in Hbound.
  change (instances (instancesController (Examples.pc_crowded (S bound))))
    with (Examples.crowded (S bound)) in Hbound.
  rewrite includes_steps_absent in Hbound by apply crowded_no_empty_key.
  rewrite crowded_keys_length in Hbound. lia.
Qed.

(** C4, amended.  [checkIfRunning(shortcutId)] returns true exactly when the
    instances table holds a record for [shortcutId], leaves the controller as
    it was and performs no effect; it copies every key of the table and
    scans the copy, so its work is between one and two times the number of
    records, and twice that number when the id is absent. *)
Theorem checkIfRunning_reads_registry `{InstancesController}
    (shorcutId : string) (pc : PluginController) :
  let table := instances (instancesController pc) in
  (exists b : bool,
     checkIfRunning shorcutId pc = (b, pc, []) /\
     (b = true <-> is_Some (JsObject.get shorcutId table))) /\
  (length table <= checkIfRunning_steps shorcutId pc <= 2 * length table)%nat /\
  (JsObject.get shorcutId table = None ->
   checkIfRunning_steps shorcutId pc = (2 * length table)%nat).
Proof.
  cbv zeta. unfold checkIfRunning_steps.
  assert (Hlen : length (JsObject.keys (instances (instancesController pc))) =
                 length (instances (instancesController pc)))
    by apply length_map.
  split; [| split].
  - eexists. split; [apply checkIfRunning_eq |].
    rewrite includes_elem_of. symmetry. apply get_keys.
  - pose proof (includes_steps_le
                  (JsObject.keys (instances (instancesController pc)))
                  shorcutId).
    lia.
  - intros Hnone. apply get_none_keys in Hnone.
    rewrite includes_steps_absent by assumption. lia.
Qed.

Lemma checkIfRunning_reads_registry_witness :
  checkIfRunning_steps "zz" (Examples.pc_crowded 3) = 6%nat.
Proof.
  apply (checkIfRunning_reads_registry (H := Spec.controller unit) "zz"
           (Examples.pc_crowded 3)).
  reflexivity.
Defined.

(** ** Launching *)



(** C3.  For any instances controller: when [createInstance] returns false,
    [launchShortcut] returns false, its only effect is that one call, and
    the controller is left as [createInstance] left it; and a call to
    [launchInstance] appears in the effects of a launch only if
    [createInstance] returned true.  On the specification's registry, a
    failed creation leaves the registry, the host identities and the
    requests sent to the backend as they were before the launch. *)
Theorem launchShortcut_creation_failed :
  (forall (H : InstancesController) (pc : PluginController)
          (shortcut : Shortcut) (onExit : Callback),
     let created :=
       createInstance (shortcutName pc) shortcut (runnerPath pc)
         (startDir pc) (instancesController pc) in
     (created.1 = false ->
      launchShortcut shortcut onExit pc =
      (false, set_instancesController created.2 pc,
       [ECreateInstance (shortcutName pc) shortcut (runnerPath pc)
          (startDir pc)])) /\
     (forall (sid : string) (cb : Callback),
        ELaunchInstance sid cb ∈ SW.trace (launchShortcut shortcut onExit pc)
        -> created.1 = true)) /\
  (forall (Cb : Type) (pc : PluginController (H := Spec.controller Cb))
          (shortcut : Shortcut) (onExit : Cb),
     (Spec.createInstance (shortcutName pc) shortcut (runnerPath pc)
        (startDir pc) (instancesController pc)).1 = false ->
     let r := launchShortcut (H := Spec.controller Cb) shortcut onExit pc in
     SW.result r = false /\
     Spec.registry (instancesController (SW.final r)) =
       Spec.registry (instancesController pc) /\
     Spec.hostApps (instancesController (SW.final r)) =
       Spec.hostApps (instancesController pc) /\
     Spec.sent (instancesController (SW.final r)) =
       Spec.sent (instancesController pc)).
Proof.
  split.
  - intros H pc shortcut onExit created. split.
    + intros Hfalse. rewrite launchShortcut_eq. cbv zeta.
      fold created. now rewrite Hfalse.
    + intros sid cb. rewrite launchShortcut_eq. cbv zeta. fold created.
      destruct (created.1); [reflexivity |].
      simpl. intros Hin. apply list_elem_of_singleton in Hin. discriminate.
  - intros Cb pc shortcut onExit Hfalse r.
    destruct (createInstance_failed _ _ _ _ _ Hfalse) as (Hr & Ha & Hs).
    subst r. rewrite launchShortcut_eq. cbv zeta.
    change (createInstance (shortcutName pc) shortcut (runnerPath pc)
              (startDir pc) (instancesController pc))
      with (Spec.createInstance (shortcutName pc) shortcut (runnerPath pc)
              (startDir pc) (instancesController pc)).
    destruct (Spec.createInstance _ _ _ _ _) as [created w1].
    simpl in *. subst created. repeat split; assumption.
Qed.

Lemma launchShortcut_creation_failed_witness :
  let pc :=
    set_instancesController (H := Spec.controller unit)
      (Spec.with_answers false None Spec.initial) Examples.pc0 in
  let r := launchShortcut (H := Spec.controller unit) Examples.s1 tt pc in
  SW.result r = false /\
  Spec.registry (instancesController (SW.final r)) = [] /\
  Spec.hostApps (instancesController (SW.final r)) = [] /\
  Spec.sent (instancesController (SW.final r)) = [].
Proof.
  cbv zeta.
  apply (proj2 launchShortcut_creation_failed unit
           (set_instancesController (H := Spec.controller unit)
              (Spec.with_answers false None Spec.initial) Examples.pc0)
           Examples.s1 tt).
  reflexivity.
Defined.



Example launch_hands_paths_to_createInstance :
  let pc :=
    SW.final (initOnLogin_resolved (H := Spec.controller unit) "alice"
                Examples.pc0) in
  map (fun app => (Spec.app_path app, Spec.app_startDir app,
                   Spec.app_command app))
    (Spec.hostApps
       (instancesController
          (SW.final (launchShortcut (H := Spec.controller unit) Examples.s2
                       tt pc)))) =
  [(runnerPath_for "alice", startDir_for "alice", "ls")].
Proof. reflexivity. Qed.

Example launch_paths_after_login :
  created_with
    (SW.trace
       (launchShortcut (H := Spec.controller unit) Examples.s2 tt
          (SW.final (initOnLogin_resolved "alice" Examples.pc0)))) =
  [(runnerPath_for "alice", startDir_for "alice")].
Proof. reflexivity. Qed.

(** ** Initialisation *)

(** C5.  [init] looks at the type of what [getShortcuts] gave before it
    uses it.  A string is logged as a failure and the hooks controller is
    not initialised; a dictionary of shortcuts is handed to the hooks
    controller, once, and no failure is logged.  Either way [init] runs to
    its last log line. *)
Theorem init_checks_getShortcuts_result `{InstancesController}
    (name : string) (steamShortcuts : list SteamAppDetails)
    (pc : PluginController) :
  (forall error : string,
     let t := SW.trace (init name steamShortcuts (ResultString error) pc) in
     ELog ("Failed to get shortcuts for hooks. Error: " +:+ error) ∈ t /\
     hooks_inits t = [] /\
     last t = Some (ELog "PluginController initialized.")) /\
  (forall d : ShortcutsDictionary,
     let t := SW.trace (init name steamShortcuts (ResultShortcuts d) pc) in
     hooks_inits t = [d] /\
     (forall error : string,
        ELog ("Failed to get shortcuts for hooks. Error: " +:+ error) ∉ t) /\
     last t = Some (ELog "PluginController initialized.")).
Proof.
  split; intros x t; subst t; rewrite init_trace;
    set (removals := map _ _).
  - split; [| split].
    + apply list_elem_of_further, elem_of_app. right.
      apply list_elem_of_further, list_elem_of_here.
    + change (hooks_inits (ELog "PluginController initializing..." ::
                removals ++ ?l))
        with (hooks_inits (removals ++ l)).
      rewrite hooks_inits_app. unfold removals.
      now rewrite hooks_inits_removals.
    + rewrite app_comm_cons, last_app. reflexivity.
  - split; [| split].
    + change (hooks_inits (ELog "PluginController initializing..." ::
                removals ++ ?l))
        with (hooks_inits (removals ++ l)).
      rewrite hooks_inits_app. unfold removals.
      now rewrite hooks_inits_removals.
    + intros error Hin.
      apply elem_of_cons in Hin as [Heq|Hin]; [discriminate Heq |].
      apply elem_of_app in Hin as [Hin|Hin].
      * unfold removals in Hin. apply list_elem_of_fmap in Hin.
        destruct Hin as (instance & Heq & _). discriminate Heq.
      * repeat (apply elem_of_cons in Hin as [Heq|Hin];
                [discriminate Heq |]).
        inversion Hin.
    + rewrite app_comm_cons, last_app. reflexivity.
Qed.

Example init_on_error_string :
  SW.trace
    (init (H := Spec.controller unit) "Bash Shortcuts"
       [mkApp 5 "Bash Shortcuts - Instance 1"; mkApp 6 "Other"]
       (ResultString "boom") Examples.pc0) =
  [ ELog "PluginController initializing...";
    ERemoveShortcutById 5;
    EConnect;
    ELog "Failed to get shortcuts for hooks. Error: boom";
    ELog "PluginController initialized." ].
Proof. reflexivity. Qed.

(** ** Closing *)

(** C6.  For any instances controller: when [stopInstance] returns false,
    [closeShortcut] returns false, logs the failure and makes no call to
    [killInstance].  On the specification's registry, closing a shortcut
    that has no Instance returns false and leaves the controller, and with
    it the list of requests sent to the backend, as it was. *)
Theorem closeShortcut_without_instance :
  (forall (H : InstancesController) (pc : PluginController)
          (shortcut : Shortcut),
     let stopped := stopInstance (id shortcut) (instancesController pc) in
     stopped.1 = false ->
     closeShortcut shortcut pc =
       (false, set_instancesController stopped.2 pc,
        [EStopInstance (id shortcut);
         ELog ("Failed to stop instance for shortcut " +:+ name shortcut
               +:+ ". Id: " +:+ id shortcut)]) /\
     (forall sid : string,
        EKillInstance sid ∉ SW.trace (closeShortcut shortcut pc))) /\
  (forall (Cb : Type) (pc : PluginController (H := Spec.controller Cb))
          (shortcut : Shortcut),
     JsObject.get (id shortcut) (Spec.registry (instancesController pc)) = None
     ->
     let r := closeShortcut (H := Spec.controller Cb) shortcut pc in
     SW.result r = false /\
     SW.final r = pc /\
     Spec.sent (instancesController (SW.final r)) =
       Spec.sent (instancesController pc) /\
     (forall sid : string, EKillInstance sid ∉ SW.trace r)).
Proof.
  assert (Hgeneric :
    forall (H : InstancesController) (pc : PluginController)
           (shortcut : Shortcut),
      (stopInstance (id shortcut) (instancesController pc)).1 = false ->
      closeShortcut shortcut pc =
        (false,
         set_instancesController
           (stopInstance (id shortcut) (instancesController pc)).2 pc,
         [EStopInstance (id shortcut);
          ELog ("Failed to stop instance for shortcut " +:+ name shortcut
                +:+ ". Id: " +:+ id shortcut)]) /\
      (forall sid : string,
         EKillInstance sid ∉ SW.trace (closeShortcut shortcut pc))).
  { intros H pc shortcut Hfalse.
    assert (Heq := closeShortcut_eq shortcut pc). cbv zeta in Heq.
    rewrite Hfalse in Heq. split; [exact Heq |].
    intros sid. rewrite Heq. simpl. intros Hin.
    repeat (apply elem_of_cons in Hin as [Hbad|Hin];
            [discriminate Hbad |]).
    inversion Hin. }
  split; [exact Hgeneric |].
  intros Cb pc shortcut Hnone r.
  pose proof (stopInstance_absent _ _ Hnone) as Hstop.
  destruct (Hgeneric (Spec.controller Cb) pc shortcut) as [Heq Hkill].
  { simpl. now rewrite Hstop. }
  subst r. simpl in Heq. rewrite Hstop in Heq. simpl in Heq.
  rewrite set_instancesController_same in Heq.
  split; [| split; [| split]].
  - now rewrite Heq.
  - now rewrite Heq.
  - now rewrite Heq.
  - exact Hkill.
Qed.

Lemma closeShortcut_without_instance_witness :
  closeShortcut (H := Spec.controller unit) Examples.s1 Examples.pc0 =
  (false, Examples.pc0,
   [EStopInstance "s1";
    ELog "Failed to stop instance for shortcut Sleep. Id: s1"]).
Proof.
  destruct (proj1 closeShortcut_without_instance (Spec.controller unit)
              Examples.pc0 Examples.s1) as [Heq _].
  - reflexivity.
  - exact Heq.
Defined.

(** * Further properties of the code *)

(** ** Dictionaries: writing and reading back *)

Lemma get_set_same {V} (k : string) (v : V) (o : JsObject.t V) :
  JsObject.get k (JsObject.set k v o) = Some v.
Proof.
  induction o as [|[k' v'] o IH]; simpl.
  - now rewrite String.eqb_refl.
  - destruct (String.eqb k k') eqn:Hk; simpl; rewrite ?Hk, ?String.eqb_refl;
      [reflexivity | assumption].
Qed.

Lemma get_set_other {V} (k k' : string) (v : V) (o : JsObject.t V) :
  k' <> k -> JsObject.get k' (JsObject.set k v o) = JsObject.get k' o.
Proof.
  intros Hne. induction o as [|[k0 v0] o IH]; simpl.
  - destruct (String.eqb_spec k' k); [contradiction | reflexivity].
  - destruct (String.eqb_spec k k0) as [->|Hk]; simpl.
    + destruct (String.eqb_spec k' k0); [contradiction | reflexivity].
    + destruct (String.eqb k' k0); [reflexivity | assumption].
Qed.

Lemma values_set_absent {V} (k : string) (v : V) (o : JsObject.t V) :
  k ∉ JsObject.keys o ->
  JsObject.values (JsObject.set k v o) = JsObject.values o ++ [v].
Proof.
  induction o as [|[k' v'] o IH]; simpl; intros Hnotin; [reflexivity |].
  destruct (String.eqb_spec k k') as [->|Hne]; simpl.
  - exfalso. apply Hnotin. left.
  - f_equal. apply IH. intros Hin. apply Hnotin. now right.
Qed.


Lemma get_values {V} (k : string) (v : V) (o : JsObject.t V) :
  JsObject.get k o = Some v -> v ∈ JsObject.values o.
Proof.
  induction o as [|[k' v'] o IH]; simpl; [discriminate |].
  destruct (String.eqb k k').
  - intros [= ->]. left.
  - intros Hget. right. now apply IH.
Qed.

Lemma set_absent {V} (k : string) (v : V) (o : JsObject.t V) :
  k ∉ JsObject.keys o -> JsObject.set k v o = o ++ [(k, v)].
Proof.
  induction o as [|[k' v'] o IH]; simpl; intros Hnotin; [reflexivity |].
  destruct (String.eqb_spec k k') as [->|Hne].
  - exfalso. apply Hnotin. left.
  - f_equal. apply IH. intros Hin. apply Hnotin. now right.
Qed.

Lemma get_insert_index_same {V} (n : N) (k : string) (v : V)
    (o : JsObject.t V) :
  k ∉ JsObject.keys o -> JsObject.get k (JsObject.insert_index n k v o) = Some v.
Proof.
  induction o as [|[k' v'] o IH]; simpl; intros Hnotin.
  - now rewrite String.eqb_refl.
  - assert (Hne : k <> k') by (intros ->; apply Hnotin; left).
    assert (Hrest : k ∉ JsObject.keys o)
      by (intros Hin; apply Hnotin; now right).
    destruct (JsObject.array_index k') as [n'|];
      [destruct (n' <? n)%N |]; simpl; rewrite ?String.eqb_refl;
      try reflexivity.
    destruct (String.eqb_spec k k'); [contradiction | now apply IH].
Qed.

Lemma get_insert_index_other {V} (n : N) (k k' : string) (v : V)
    (o : JsObject.t V) :
  k' <> k ->
  JsObject.get k' (JsObject.insert_index n k v o) = JsObject.get k' o.
Proof.
  intros Hne.
  assert (Hk : String.eqb k' k = false) by now apply String.eqb_neq.
  induction o as [|[k0 v0] o IH]; simpl; [now rewrite Hk |].
  destruct (JsObject.array_index k0) as [n0|];
    [destruct (n0 <? n)%N |]; simpl; rewrite ?Hk; try reflexivity.
  now rewrite IH.
Qed.


Lemma assign_present {V} (k : string) (v : V) (o : JsObject.t V) :
  k ∈ JsObject.keys o -> JsObject.assign k v o = JsObject.set k v o.
Proof.
  intros Hin. apply get_keys in Hin as [v' Hget].
  unfold JsObject.assign. now rewrite Hget.
Qed.


Lemma assign_fresh {V} (k : string) (v : V) (o : JsObject.t V) :
  k ∉ JsObject.keys o -> k <> "__proto__" ->
  JsObject.assign k v o =
  match JsObject.array_index k with
  | Some n => JsObject.insert_index n k v o
  | None => o ++ [(k, v)]
  end.
Proof.
  intros Hnotin Hproto. unfold JsObject.assign.
  rewrite (proj2 (get_none_keys k o) Hnotin).
  destruct (String.eqb_spec k "__proto__"); [contradiction |].
  destruct (JsObject.array_index k); [reflexivity | now apply set_absent].
Qed.


Lemma get_assign_same {V} (k : string) (v : V) (o : JsObject.t V) :
  (k = "__proto__" -> k ∈ JsObject.keys o) ->
  JsObject.get k (JsObject.assign k v o) = Some v.
Proof.
  intros Hproto. destruct (decide (k ∈ JsObject.keys o)) as [Hin|Hnotin].
  - rewrite assign_present by assumption. apply get_set_same.
  - assert (Hne : k <> "__proto__") by (intros Heq; auto).
    rewrite assign_fresh by assumption.
    destruct (JsObject.array_index k).
    + now apply get_insert_index_same.
    + rewrite <- set_absent by assumption. apply get_set_same.
Qed.

Lemma get_assign_other {V} (k k' : string) (v : V) (o : JsObject.t V) :
  k' <> k -> JsObject.get k' (JsObject.assign k v o) = JsObject.get k' o.
Proof.
  intros Hne. unfold JsObject.assign.
  destruct (JsObject.get k o);
    [now apply get_set_other |].
  destruct (String.eqb k "__proto__"); [reflexivity |].
  destruct (JsObject.array_index k).
  - now apply get_insert_index_other.
  - now apply get_set_other.
Qed.

(** ** ShortcutsState: how the two mutators compose *)

(** X1.  [setShortcuts(d)] keeps the running set as it was, also for ids
    that [d] does not hold; the three other fields come out of [d] alone,
    whatever they were before; and a second call with the same dictionary
    changes nothing. *)
Theorem setShortcuts_overwrites (d : ShortcutsDictionary)
    (st st0 : ShortcutsState) :
  let st' := SW.final (ShortcutsState.setShortcuts d st) in
  runningShortcuts st' = runningShortcuts st /\
  SW.final (ShortcutsState.setShortcuts d st0) =
    ShortcutsState.set_runningShortcuts (runningShortcuts st0) st' /\
  SW.final (ShortcutsState.setShortcuts d st') = st' /\
  length (shortcutsList st') = length d.
Proof.
  cbv zeta. rewrite !setShortcuts_final. cbv zeta. simpl.
  repeat split.
  etransitivity;
    [apply Permutation_length, (sort_Permutation position) | apply length_map].
Qed.

Example setShortcuts_keeps_unknown_running_id :
  runningShortcuts
    (SW.final (ShortcutsState.setShortcuts []
       (SW.final (ShortcutsState.setIsRunning "s1" true
                    (SW.final (ShortcutsState.setShortcuts Examples.dict
                                 ShortcutsState.new))))))
  = {[ "s1" ]} ∪ ∅.
Proof. reflexivity. Qed.

(** X2.  [setIsRunning] and [setShortcuts] do not interfere: in either
    order the two calls end in the same state. *)
Theorem setIsRunning_setShortcuts_commute (shortcutId : string)
    (value : bool) (d : ShortcutsDictionary) (st : ShortcutsState) :
  SW.final (ShortcutsState.setShortcuts d
              (SW.final (ShortcutsState.setIsRunning shortcutId value st))) =
  SW.final (ShortcutsState.setIsRunning shortcutId value
              (SW.final (ShortcutsState.setShortcuts d st))).
Proof.
  rewrite !setShortcuts_final, !setIsRunning_final. cbv zeta.
  destruct value; reflexivity.
Qed.

(** X3.  Of two [setIsRunning] calls for one id the later decides, whatever
    the earlier said; calls for different ids can be swapped. *)
Theorem setIsRunning_last_call_wins (id1 id2 : string) (v1 v2 : bool)
    (st : ShortcutsState) :
  let twice :=
    SW.final (ShortcutsState.setIsRunning id2 v2
                (SW.final (ShortcutsState.setIsRunning id1 v1 st))) in
  (id1 = id2 ->
   twice = SW.final (ShortcutsState.setIsRunning id2 v2 st)) /\
  (id1 <> id2 ->
   twice =
   SW.final (ShortcutsState.setIsRunning id1 v1
               (SW.final (ShortcutsState.setIsRunning id2 v2 st)))).
Proof.
  cbv zeta. rewrite !setIsRunning_final.
  destruct st as [d l r e]. unfold ShortcutsState.set_runningShortcuts. simpl.
  split.
  - intros ->. f_equal. apply set_eq. intros x.
    destruct v1, v2;
      repeat first [rewrite elem_of_union | rewrite elem_of_difference
                   | rewrite elem_of_singleton];
      destruct (decide (x = id2)); tauto.
  - intros Hne. f_equal. apply set_eq. intros x.
    destruct v1, v2;
      repeat first [rewrite elem_of_union | rewrite elem_of_difference
                   | rewrite elem_of_singleton];
      destruct (decide (x = id1)), (decide (x = id2)); intuition congruence.
Qed.

Lemma setIsRunning_last_call_wins_witness :
  SW.final (ShortcutsState.setIsRunning "s1" false
              (SW.final (ShortcutsState.setIsRunning "s1" true
                           ShortcutsState.new))) =
  SW.final (ShortcutsState.setIsRunning "s1" false ShortcutsState.new).
Proof.
  apply (setIsRunning_last_call_wins "s1" "s1" true false ShortcutsState.new).
  reflexivity.
Defined.

(** X4.  When no two shortcuts of a dictionary share a position, the order
    of [shortcutsList] and of [reorderableShortcuts] is decided by the
    positions alone: two dictionaries that hold the same shortcuts, under
    whatever keys and in whatever order, give the same two lists. *)
Theorem setShortcuts_order_by_positions_alone
    (d1 d2 : ShortcutsDictionary) (st1 st2 : ShortcutsState) :
  JsObject.values d1 ≡ₚ JsObject.values d2 ->
  (forall a b : Shortcut,
     a ∈ JsObject.values d1 -> b ∈ JsObject.values d1 ->
     position a = position b -> a = b) ->
  let st1' := SW.final (ShortcutsState.setShortcuts d1 st1) in
  let st2' := SW.final (ShortcutsState.setShortcuts d2 st2) in
  shortcutsList st1' = shortcutsList st2' /\
  reorderableShortcuts st1' = reorderableShortcuts st2'.
Proof.
  intros Hperm Hdistinct. cbv zeta. rewrite !setShortcuts_final. cbv zeta.
  simpl.
  assert (Hsame :
    JsArray.sort ShortcutsState.by_position (JsObject.values d1) =
    JsArray.sort ShortcutsState.by_position (JsObject.values d2)).
  { apply (StronglySorted_unique_strong
             (fun a b => position a <= position b)).
    - intros x1 x2 Hx1 Hx2 H12 H21. apply Hdistinct.
      + now rewrite <- (sort_Permutation position (JsObject.values d1)).
      + rewrite Hperm.
        now rewrite <- (sort_Permutation position (JsObject.values d2)).
      + lia.
    - apply (sort_StronglySorted position).
    - apply (sort_StronglySorted position).
    - etransitivity; [apply (sort_Permutation position) |].
      etransitivity; [exact Hperm |].
      symmetry. apply (sort_Permutation position). }
  now rewrite Hsame.
Qed.

Lemma setShortcuts_order_by_positions_alone_witness :
  shortcutsList
    (SW.final (ShortcutsState.setShortcuts
                 [("a", MoreExamples.far); ("b", MoreExamples.near)]
                 ShortcutsState.new)) =
  shortcutsList
    (SW.final (ShortcutsState.setShortcuts
                 [("x", MoreExamples.near); ("y", MoreExamples.far)]
                 ShortcutsState.new)).
Proof.
  apply (setShortcuts_order_by_positions_alone
           [("a", MoreExamples.far); ("b", MoreExamples.near)]
           [("x", MoreExamples.near); ("y", MoreExamples.far)]
           ShortcutsState.new ShortcutsState.new).
  - apply Permutation_swap.
  - intros a b Ha Hb.
    apply elem_of_cons in Ha as [->|Ha];
      [| apply list_elem_of_singleton in Ha as ->];
      (apply elem_of_cons in Hb as [->|Hb];
       [| apply list_elem_of_singleton in Hb as ->]);
      simpl; intros Hpos; first [reflexivity | discriminate Hpos].
Defined.

(** ** ShortcutsContextProvider *)

Lemma call_dispatches (c : ShortcutsContextProvider.Call)
    (st : ShortcutsState) :
  SW.trace (ShortcutsContextProvider.call c st) =
  [ {| ev_type := "stateUpdate";
       ev_seen :=
         ShortcutsState.getPublicState
           (SW.final (ShortcutsContextProvider.call c st)) |} ].
Proof. destruct c as [d|shortcutId []]; reflexivity. Qed.

(** X5.  With its listener registered, the provider's [publicState] is a
    copy of the class's public state after every call of [setShortcuts] or
    [setIsRunning], from the first render on; one call is enough to bring a
    stale [publicState] up to date. *)
Theorem provider_mirrors_class :
  (forall (calls : list ShortcutsContextProvider.Call) (st : ShortcutsState),
     let s :=
       ShortcutsContextProvider.after calls
         (st, ShortcutsContextProvider.initial st) in
     s.2 = ShortcutsState.getPublicState s.1) /\
  (forall (c : ShortcutsContextProvider.Call)
          (calls : list ShortcutsContextProvider.Call)
          (st : ShortcutsState) (stale : PublicShortcutsState),
     let s := ShortcutsContextProvider.after (c :: calls) (st, stale) in
     s.2 = ShortcutsState.getPublicState s.1).
Proof.
  assert (Hinv :
    forall calls st,
      (ShortcutsContextProvider.after calls
         (st, ShortcutsState.getPublicState st)).2 =
      ShortcutsState.getPublicState
        (ShortcutsContextProvider.after calls
           (st, ShortcutsState.getPublicState st)).1).
  { induction calls as [|c calls IH]; intros st; [reflexivity |].
    unfold ShortcutsContextProvider.after in *. simpl.
    rewrite call_dispatches. simpl. apply IH. }
  split.
  - intros calls st. apply Hinv.
  - intros c calls st stale.
    unfold ShortcutsContextProvider.after in *. simpl.
    rewrite call_dispatches. simpl. apply Hinv.
Qed.

(** ** The running flag over a sequence *)

(** X6.  After any sequence of operations an id is in the running set
    exactly when the last [setIsRunning] call for that id had value true, or,
    if there was no such call, when it was in the set at the start; launches,
    closes, kills and exit signals in between do not count. *)
Theorem running_flag_is_last_setIsRunning `{InstancesController}
    (ops : list Op) (pc : PluginController) (shortcutId : string) :
  shortcutId ∈ runningShortcuts (state (exec ops pc)) <->
  match last_setIsRunning shortcutId ops with
  | Some value => value = true
  | None => shortcutId ∈ runningShortcuts (state pc)
  end.
Proof.
  revert pc. induction ops as [|op ops IH]; intros pc; [reflexivity |].
  change (exec (op :: ops) pc) with (exec ops (step pc op)).
  rewrite IH. simpl.
  destruct (last_setIsRunning shortcutId ops) as [value|]; [reflexivity |].
  destruct (step_effect pc op) as (_ & _ & _ & -> & _).
  destruct op as [sid value|shortcut onExit|shortcut|shortcut|change]; simpl;
    try reflexivity.
  destruct (String.eqb_spec sid shortcutId) as [->|Hne]; destruct value.
  - rewrite elem_of_union, elem_of_singleton. tauto.
  - rewrite elem_of_difference, elem_of_singleton.
    split; [tauto | discriminate].
  - rewrite elem_of_union, elem_of_singleton. split; [| tauto].
    intros [Heq|Hin]; [congruence | assumption].
  - rewrite elem_of_difference, elem_of_singleton. split; [tauto |].
    intros Hin. split; [assumption | congruence].
Qed.

Example running_flag_after_launch_and_exit :
  let ops : list (Op (H := Spec.controller unit)) :=
    [OpLaunch (H := Spec.controller unit) Examples.s1 tt;
     OpSetIsRunning (H := Spec.controller unit) "s1" true;
     OpController (H := Spec.controller unit) (Spec.exitSignal "s1");
     OpController (H := Spec.controller unit) (Spec.exitSignal "s1")] in
  last_setIsRunning "s1" ops = Some true /\
  SW.result (checkIfRunning "s1" (exec ops Examples.pc0)) = false.
Proof. split; reflexivity. Qed.

(** ** Launching and closing, in full *)

Lemma killShortcut_eq `{InstancesController} (shortcut : Shortcut)
    (pc : PluginController) :
  killShortcut shortcut pc =
  let killed := killInstance (id shortcut) (instancesController pc) in
  (killed.1, set_instancesController killed.2 pc,
   [EKillInstance (id shortcut)]).
Proof.
  unfold killShortcut, on_instances. cbv zeta.
  now destruct (killInstance _ _).
Qed.

(** X7.  [launchShortcut] returns true exactly when [createInstance] and then
    [launchInstance] both did; [launchInstance] runs on the controller as
    [createInstance] left it; a creation that succeeded is logged, one that
    failed is not. *)
Theorem launchShortcut_result `{InstancesController}
    (shortcut : Shortcut) (onExit : Callback) (pc : PluginController) :
  let created :=
    createInstance (shortcutName pc) shortcut (runnerPath pc) (startDir pc)
      (instancesController pc) in
  let launched := launchInstance (id shortcut) onExit created.2 in
  let r := launchShortcut shortcut onExit pc in
  (SW.result r = true <-> created.1 = true /\ launched.1 = true) /\
  (created.1 = true -> instancesController (SW.final r) = launched.2) /\
  instance_calls (SW.trace r) =
    (if created.1 then ["createInstance"; "launchInstance"]
     else ["createInstance"]) /\
  logged (SW.trace r) =
    (if created.1 then ["Created Instance for shortcut " +:+ name shortcut]
     else []).
Proof.
  cbv zeta. rewrite launchShortcut_eq. cbv zeta.
  destruct (createInstance _ _ _ _ _) as [[] ic1]; simpl.
  - destruct (launchInstance _ _ _) as [launched ic2]; simpl.
    repeat split; try tauto; reflexivity.
  - repeat split; try reflexivity; try discriminate.
    intros [Hfalse _]. discriminate.
Qed.

Lemma launchShortcut_result_witness :
  instancesController
    (SW.final (launchShortcut (H := Spec.controller unit) Examples.s1 tt
                 Examples.pc0)) =
  (Spec.launchInstance "s1" tt
     (Spec.createInstance "" Examples.s1 (runnerPath_for "deck")
        (startDir_for "deck") Spec.initial).2).2.
Proof.
  apply (launchShortcut_result (H := Spec.controller unit) Examples.s1 tt
           Examples.pc0).
  reflexivity.
Defined.

(** X8.  [closeShortcut] asks for the stop first and for the kill only when
    the stop succeeded; it returns true exactly when both did; and it logs
    one line either way, the success of the stop or its failure with the
    shortcut's name and id. *)
Theorem closeShortcut_result `{InstancesController}
    (shortcut : Shortcut) (pc : PluginController) :
  let stopped := stopInstance (id shortcut) (instancesController pc) in
  let killed := killInstance (id shortcut) stopped.2 in
  let r := closeShortcut shortcut pc in
  (SW.result r = true <-> stopped.1 = true /\ killed.1 = true) /\
  instancesController (SW.final r) =
    (if stopped.1 then killed.2 else stopped.2) /\
  instance_calls (SW.trace r) =
    (if stopped.1 then ["stopInstance"; "killInstance"]
     else ["stopInstance"]) /\
  logged (SW.trace r) =
    [ if stopped.1
      then "Stopped Instance for shortcut " +:+ name shortcut
      else "Failed to stop instance for shortcut " +:+ name shortcut
           +:+ ". Id: " +:+ id shortcut ].
Proof.
  cbv zeta. rewrite closeShortcut_eq. cbv zeta.
  destruct (stopInstance _ _) as [[] ic1]; simpl.
  - destruct (killInstance _ _) as [killed ic2]; simpl.
    repeat split; try tauto; reflexivity.
  - repeat split; try reflexivity; try discriminate.
    intros [Hfalse _]. discriminate.
Qed.

(** X9.  Launching, closing and killing leave the shortcuts state, the
    plugin name and the two paths as they were and dispatch nothing on the
    event bus: the running set shown to the UI is not touched by them.
    [checkIfRunning] and [getShortcutById] change nothing at all and have
    no effect. *)
Theorem instance_operations_leave_state `{InstancesController}
    (shortcut : Shortcut) (onExit : Callback) (shortcutId : string)
    (pc : PluginController) :
  (forall r : PluginController * list Effect,
     r ∈ [ (SW.final (launchShortcut shortcut onExit pc),
            SW.trace (launchShortcut shortcut onExit pc));
           (SW.final (closeShortcut shortcut pc),
            SW.trace (closeShortcut shortcut pc));
           (SW.final (killShortcut shortcut pc),
            SW.trace (killShortcut shortcut pc)) ] ->
     state r.1 = state pc /\
     shortcutName r.1 = shortcutName pc /\
     runnerPath r.1 = runnerPath pc /\
     startDir r.1 = startDir pc /\
     dispatched r.2 = []) /\
  (exists running : bool,
     checkIfRunning shortcutId pc = (running, pc, [])) /\
  (exists found : JsObject.Lookup Shortcut,
     getShortcutById shortcutId pc = (found, pc, [])).
Proof.
  split; [| split; eexists; reflexivity].
  intros r Hr.
  apply elem_of_cons in Hr as [->|Hr];
    [| apply elem_of_cons in Hr as [->|Hr];
       [| apply list_elem_of_singleton in Hr as ->]].
  - rewrite launchShortcut_eq. cbv zeta.
    destruct (createInstance _ _ _ _ _) as [[] ic1]; simpl;
      repeat split; reflexivity.
  - rewrite closeShortcut_eq. cbv zeta.
    destruct (stopInstance _ _) as [[] ic1]; simpl; repeat split; reflexivity.
  - rewrite killShortcut_eq. cbv zeta. simpl. repeat split; reflexivity.
Qed.

Lemma instance_operations_leave_state_witness :
  state (SW.final (closeShortcut (H := Spec.controller unit) Examples.s1
                     Examples.pc1)) = state Examples.pc1.
Proof.
  apply (proj1 (instance_operations_leave_state (H := Spec.controller unit)
                  Examples.s1 tt "s1" Examples.pc1)
           (SW.final (closeShortcut (H := Spec.controller unit) Examples.s1
                        Examples.pc1),
            SW.trace (closeShortcut (H := Spec.controller unit) Examples.s1
                        Examples.pc1))).
  apply list_elem_of_further, list_elem_of_here.
Defined.

(** ** Initialisation, in full *)

Lemma init_final `{InstancesController} (name : string)
    (steamShortcuts : list SteamAppDetails) (fetched : ShortcutsResult)
    (pc : PluginController) :
  SW.final (init name steamShortcuts fetched pc) = set_shortcutName name pc.
Proof.
  unfold init, SW.final, SW.bind, log, SW.emit, SW.modify. cbv zeta.
  generalize (List.filter
    (fun shortcut =>
       String.prefix "Bash Shortcuts - Instance" (strDisplayName shortcut))
    steamShortcuts).
  intros [|instance rest].
  - destruct fetched; reflexivity.
  - cbn [length Nat.ltb Nat.leb]. rewrite remove_old_eq.
    destruct fetched; reflexivity.
Qed.

Lemma removed_removals `{InstancesController} (l : list SteamAppDetails) :
  removed (map (fun instance => ERemoveShortcutById (unAppID instance)) l) =
  map unAppID l.
Proof. induction l as [|a l IH]; simpl; [reflexivity | now rewrite IH]. Qed.

Lemma removed_app `{InstancesController} (t1 t2 : list Effect) :
  removed (t1 ++ t2) = removed t1 ++ removed t2.
Proof. apply flat_map_app. Qed.

(** X10.  [init] asks for the removal of exactly the host shortcuts whose
    display name starts with [Bash Shortcuts - Instance], each once and in
    the order the host listed them; it connects the web socket after the
    last removal and before the hooks are initialised. *)
Theorem init_removes_stale_instances `{InstancesController}
    (name : string) (steamShortcuts : list SteamAppDetails)
    (fetched : ShortcutsResult) (pc : PluginController) :
  let t := SW.trace (init name steamShortcuts fetched pc) in
  let stale :=
    List.filter
      (fun shortcut =>
         String.prefix "Bash Shortcuts - Instance" (strDisplayName shortcut))
      steamShortcuts in
  removed t = map unAppID stale /\
  (forall appId : Z,
     appId ∈ removed t <->
     exists app : SteamAppDetails,
       app ∈ steamShortcuts /\ unAppID app = appId /\
       String.prefix "Bash Shortcuts - Instance" (strDisplayName app) = true)
  /\
  (exists before after : list Effect,
     t = before ++ EConnect :: after /\
     removed after = [] /\ hooks_inits before = []).
Proof.
  cbv zeta. rewrite init_trace.
  set (stale := List.filter _ steamShortcuts).
  assert (Hremoved :
    removed
      (ELog "PluginController initializing..." ::
       map (fun instance => ERemoveShortcutById (unAppID instance)) stale ++
       [EConnect;
        match fetched with
        | ResultString shortcuts =>
            ELog ("Failed to get shortcuts for hooks. Error: " +:+ shortcuts)
        | ResultShortcuts shortcuts => EHooksInit shortcuts
        end;
        ELog "PluginController initialized."]) = map unAppID stale).
  { change (removed (ELog ?m :: ?l)) with (removed l).
    rewrite removed_app, removed_removals.
    destruct fetched; simpl; now rewrite app_nil_r. }
  split; [exact Hremoved | split].
  - intros appId. rewrite Hremoved.
    change (map unAppID stale) with (unAppID <$> stale).
    rewrite list_elem_of_fmap. unfold stale.
    split.
    + intros (app & -> & Hin). apply list_elem_of_In, filter_In in Hin.
      destruct Hin as [Hin Hprefix]. exists app.
      split; [now apply list_elem_of_In | split; [reflexivity | assumption]].
    + intros (app & Hin & <- & Hprefix). exists app.
      split; [reflexivity |].
      apply list_elem_of_In, filter_In.
      split; [now apply list_elem_of_In | assumption].
  - exists (ELog "PluginController initializing..." ::
            map (fun instance => ERemoveShortcutById (unAppID instance)) stale).
    eexists. split; [reflexivity | split].
    + destruct fetched; reflexivity.
    + change (hooks_inits (ELog ?m :: ?l)) with (hooks_inits l).
      apply hooks_inits_removals.
Qed.

Example init_keeps_foreign_shortcuts :
  removed
    (SW.trace
       (init (H := Spec.controller unit) "Bash Shortcuts"
          [mkApp 5 "Bash Shortcuts - Instance 1"; mkApp 6 "Other";
           mkApp 7 "Bash Shortcuts"; mkApp 8 "Bash Shortcuts - Instance 12"]
          (ResultShortcuts []) Examples.pc0)) = [5; 8].
Proof. reflexivity. Qed.

(** X11.  [init(name)] changes one field of the controller, [shortcutName];
    a launch after it applies [createInstance] to [name] as the plugin
    name, with the paths and the instances controller that were there
    before: the result of the launch and the controller it leaves are
    those of that call, followed by [launchInstance] when it returned
    true. *)
Theorem init_names_later_launches `{InstancesController}
    (name : string) (steamShortcuts : list SteamAppDetails)
    (fetched : ShortcutsResult) (pc : PluginController)
    (shortcut : Shortcut) (onExit : Callback) :
  let pc' := SW.final (init name steamShortcuts fetched pc) in
  let created :=
    createInstance name shortcut (runnerPath pc) (startDir pc)
      (instancesController pc) in
  let launched := launchInstance (id shortcut) onExit created.2 in
  let r := launchShortcut shortcut onExit pc' in
  shortcutName pc' = name /\
  runnerPath pc' = runnerPath pc /\
  startDir pc' = startDir pc /\
  state pc' = state pc /\
  instancesController pc' = instancesController pc /\
  SW.result r = (if created.1 then launched.1 else false) /\
  instancesController (SW.final r) =
    (if created.1 then launched.2 else created.2) /\
  exists rest : list Effect,
    SW.trace r =
    ECreateInstance name shortcut (runnerPath pc) (startDir pc) :: rest.
Proof.
  cbv zeta. rewrite init_final. repeat split;
    rewrite launchShortcut_eq; cbv zeta; simpl;
    destruct (createInstance _ _ _ _ _) as [[] ic1]; simpl;
    try reflexivity; eexists; reflexivity.
Qed.

(** X12.  When the host's services did not come up, the login handler logs
    the login, shows one error toast and initialises nothing: the controller
    is unchanged, no stale shortcut is removed, the web socket is not
    connected and the hooks are not initialised.  When they did, it runs
    [init] under the name [Bash Shortcuts]. *)
Theorem login_without_services_initialises_nothing `{InstancesController}
    (username : string) (steamShortcuts : list SteamAppDetails)
    (fetched : ShortcutsResult) (pc : PluginController) :
  (let r := initOnLogin_loggedIn username false steamShortcuts fetched pc in
   SW.final r = pc /\
   SW.trace r =
     [ ELog ("user logged in. [DEBUG INFO] username: " +:+ username +:+ ";");
       EToast "Error" "Failed to initialize, try restarting." ]) /\
  (let r := initOnLogin_loggedIn username true steamShortcuts fetched pc in
   SW.final r = SW.final (init "Bash Shortcuts" steamShortcuts fetched pc) /\
   shortcutName (SW.final r) = "Bash Shortcuts" /\
   SW.trace r =
     ELog ("user logged in. [DEBUG INFO] username: " +:+ username +:+ ";") ::
     SW.trace (init "Bash Shortcuts" steamShortcuts fetched pc)).
Proof.
  split; cbv zeta.
  - split; [now destruct pc | reflexivity].
  - unfold initOnLogin_loggedIn, SW.bind, log, SW.emit, SW.final, SW.trace.
    destruct (init "Bash Shortcuts" steamShortcuts fetched pc)
      as [[u pc'] t] eqn:Hinit.
    simpl. repeat split.
    change pc' with (SW.final (u, pc', t)). rewrite <- Hinit, init_final.
    reflexivity.
Qed.

(** ** Looking a shortcut up *)

(** X13.  Once the state was given a dictionary, [getShortcutById(id)]
    returns the shortcut the dictionary holds under [id] as an own property,
    and that shortcut is also in [shortcutsList] and is the [data] of an
    entry of [reorderableShortcuts]; for an id the dictionary does not
    hold, what it returns is no shortcut of the dictionary: the read goes
    on to the prototype chain. *)
Theorem getShortcutById_after_setShortcuts `{InstancesController}
    (d : ShortcutsDictionary) (shortcutId : string) (pc : PluginController) :
  let pc' := SW.final (on_state (ShortcutsState.setShortcuts d) pc) in
  let found := SW.result (getShortcutById shortcutId pc') in
  (forall shortcut : Shortcut,
     found = JsObject.Own shortcut <->
     JsObject.get shortcutId d = Some shortcut) /\
  (shortcutId ∉ JsObject.keys d -> found = JsObject.Inherited shortcutId) /\
  (forall shortcut : Shortcut,
     found = JsObject.Own shortcut ->
     shortcut ∈ shortcutsList (state pc') /\
     exists entry : ReorderableEntry,
       entry ∈ reorderableShortcuts (state pc') /\ data entry = shortcut).
Proof.
  cbv zeta.
  assert (Hstate :
    state (SW.final (on_state (ShortcutsState.setShortcuts d) pc)) =
    SW.final (ShortcutsState.setShortcuts d (state pc))) by reflexivity.
  assert (Hfound :
    SW.result
      (getShortcutById shortcutId
         (SW.final (on_state (ShortcutsState.setShortcuts d) pc))) =
    JsObject.lookup shortcutId d) by reflexivity.
  rewrite Hfound, Hstate, setShortcuts_final. cbv zeta. simpl.
  unfold JsObject.lookup.
  split; [| split].
  - intros shortcut. destruct (JsObject.get shortcutId d); split;
      congruence.
  - intros Hnotin. now rewrite (proj2 (get_none_keys shortcutId d) Hnotin).
  - intros shortcut Hown.
    assert (Hget : JsObject.get shortcutId d = Some shortcut)
      by (destruct (JsObject.get shortcutId d); congruence).
    apply get_values in Hget.
    assert (Hin : shortcut ∈
              JsArray.sort ShortcutsState.by_position (JsObject.values d)).
    { now rewrite (sort_Permutation position (JsObject.values d)). }
    split; [exact Hin |].
    exists (ShortcutsState.entry_of shortcut). split; [| reflexivity].
    change (map ShortcutsState.entry_of ?l) with (ShortcutsState.entry_of <$> l).
    apply list_elem_of_fmap. now exists shortcut.
Qed.

Lemma getShortcutById_after_setShortcuts_witness :
  SW.result
    (getShortcutById (H := Spec.controller unit) "constructor"
       (SW.final (on_state (ShortcutsState.setShortcuts Examples.dict)
                    Examples.pc0))) = JsObject.Inherited "constructor".
Proof.
  apply (getShortcutById_after_setShortcuts (H := Spec.controller unit)
           Examples.dict "constructor" Examples.pc0).
  intros Hin. repeat (apply elem_of_cons in Hin as [Heq|Hin];
                      [discriminate Heq |]).
  inversion Hin.
Defined.

(** ** AddShortcut *)

Section AddShortcutFacts.
Context (newShortcut : string -> string -> string -> Shortcut).

Lemma saveShortcut_eq (uuid : string) (rendered : ShortcutsDictionary)
    (form : AddShortcut.Form) (st : ShortcutsState) :
  AddShortcut.saveShortcut newShortcut uuid rendered (form, st) =
  let newShort :=
    newShortcut uuid (AddShortcut.form_name form) (AddShortcut.form_cmd form)
  in
  let st' :=
    SW.final (ShortcutsState.setShortcuts
                (JsObject.assign (id newShort) newShort rendered) st) in
  (tt,
   ({| AddShortcut.ableToSave := AddShortcut.ableToSave form;
       AddShortcut.form_name := ""; AddShortcut.form_cmd := "" |}, st'),
   [ AddShortcut.EAddShortcut newShort;
     AddShortcut.EShowToast "Shortcut Saved!";
     AddShortcut.EStateUpdate
       {| ev_type := "stateUpdate";
          ev_seen := ShortcutsState.getPublicState st' |} ]).
Proof. reflexivity. Qed.

Lemma added_app (t1 t2 : list AddShortcut.UiEffect) :
  AddShortcut.added (t1 ++ t2) = AddShortcut.added t1 ++ AddShortcut.added t2.
Proof. apply flat_map_app. Qed.
End AddShortcutFacts.

(** X14.  A shortcut saved through the form under an id other than
    [__proto__] (or under [__proto__] when the rendered dictionary has that
    own property) can be read back: the dictionary holds it under its id,
    the new shortcut is in [shortcutsList], and [getShortcutById] returns
    it.  Whatever the id, every other id of the rendered dictionary still
    leads to what it led to and the running set is as before. *)
Theorem saveShortcut_round_trip `{InstancesController}
    (newShortcut : string -> string -> string -> Shortcut)
    (uuid : string) (rendered : ShortcutsDictionary)
    (form : AddShortcut.Form) (st : ShortcutsState) (pc : PluginController) :
  let newShort :=
    newShortcut uuid (AddShortcut.form_name form) (AddShortcut.form_cmd form)
  in
  let st' :=
    (SW.final (AddShortcut.saveShortcut newShortcut uuid rendered (form, st))).2
  in
  (forall k : string,
     k <> id newShort ->
     JsObject.get k (shortcuts st') = JsObject.get k rendered) /\
  runningShortcuts st' = runningShortcuts st /\
  ((id newShort = "__proto__" -> id newShort ∈ JsObject.keys rendered) ->
   JsObject.get (id newShort) (shortcuts st') = Some newShort /\
   newShort ∈ shortcutsList st' /\
   SW.result (getShortcutById (id newShort) (set_state st' pc)) =
     JsObject.Own newShort).
Proof.
  cbv zeta. rewrite saveShortcut_eq. cbv zeta.
  unfold SW.final at 1. simpl snd. simpl fst.
  rewrite setShortcuts_final. cbv zeta. simpl.
  set (newShort := newShortcut uuid _ _).
  split; [| split; [reflexivity |]].
  - intros k Hk. now apply get_assign_other.
  - intros Hproto.
    assert (Hget : JsObject.get (id newShort)
                     (JsObject.assign (id newShort) newShort rendered) =
                   Some newShort) by now apply get_assign_same.
    split; [exact Hget | split].
    + rewrite (sort_Permutation position). eapply get_values, Hget.
    + change (JsObject.lookup (id newShort)
                (JsObject.assign (id newShort) newShort rendered) =
              JsObject.Own newShort).
      unfold JsObject.lookup. now rewrite Hget.
Qed.

Lemma saveShortcut_round_trip_witness :
  JsObject.get "7"
    (shortcuts
       (SW.final
          (AddShortcut.saveShortcut MoreExamples.newShortcut "7"
             Examples.dict
             ({| AddShortcut.ableToSave := true;
                 AddShortcut.form_name := "Top";
                 AddShortcut.form_cmd := "top" |},
              SW.final (ShortcutsState.setShortcuts Examples.dict
                          ShortcutsState.new)))).2) =
  Some (MoreExamples.newShortcut "7" "Top" "top").
Proof.
  apply (saveShortcut_round_trip (H := Spec.controller unit)
           MoreExamples.newShortcut "7" Examples.dict
           {| AddShortcut.ableToSave := true;
              AddShortcut.form_name := "Top";
              AddShortcut.form_cmd := "top" |}
           (SW.final (ShortcutsState.setShortcuts Examples.dict
                        ShortcutsState.new))
           Examples.pc0).
  discriminate.
Defined.



Example saveShortcut_array_index_and_proto :
  let form :=
    {| AddShortcut.ableToSave := true; AddShortcut.form_name := "Top";
       AddShortcut.form_cmd := "top" |} in
  let keys_after uuid :=
    JsObject.keys
      (shortcuts
         (SW.final
            (AddShortcut.saveShortcut MoreExamples.newShortcut uuid
               Examples.dict (form, ShortcutsState.new))).2) in
  keys_after "7" = ["7"; "s1"; "s2"; "s3"] /\
  keys_after "07" = ["s1"; "s2"; "s3"; "07"] /\
  keys_after "u-1" = ["s1"; "s2"; "s3"; "u-1"] /\
  keys_after "__proto__" = ["s1"; "s2"; "s3"].
Proof. repeat split; reflexivity. Qed.

Section AddShortcutSession.
Context (newShortcut : string -> string -> string -> Shortcut).

Lemma handle_keeps_form_checked (ev : AddShortcut.Event)
    (s : AddShortcut.Form * ShortcutsState) :
  AddShortcut.ableToSave s.1 =
    negb (String.eqb (AddShortcut.form_name s.1) "") &&
    negb (String.eqb (AddShortcut.form_cmd s.1) "") ->
  let r := AddShortcut.handle newShortcut ev s in
  AddShortcut.ableToSave (SW.final r).1 =
    negb (String.eqb (AddShortcut.form_name (SW.final r).1) "") &&
    negb (String.eqb (AddShortcut.form_cmd (SW.final r).1) "") /\
  (length (AddShortcut.added (SW.trace r)) <=
   match ev with AddShortcut.ClickSave _ => 1 | _ => 0 end)%nat /\
  forall x : Shortcut,
    x ∈ AddShortcut.added (SW.trace r) ->
    exists uuid n c : string,
      x = newShortcut uuid n c /\ n <> "" /\ c <> "".
Proof.
  destruct s as [[able n c] st]. simpl. intros Hinv.
  destruct ev as [value|value|uuid];
    unfold AddShortcut.handle, SW.bind, SW.get; simpl.
  - destruct (String.eqb_spec n value) as [->|Hne]; simpl.
    + rewrite String.eqb_refl. simpl.
      split; [exact Hinv | split; [lia |]]. intros x Hx. inversion Hx.
    + split; [reflexivity | split; [lia |]]. intros x Hx. inversion Hx.
  - rewrite String.eqb_refl. simpl.
    destruct (String.eqb_spec c value) as [->|Hne]; simpl.
    + split; [exact Hinv | split; [lia |]]. intros x Hx. inversion Hx.
    + split; [reflexivity | split; [lia |]]. intros x Hx. inversion Hx.
  - destruct able; simpl.
    + destruct (String.eqb_spec n "") as [->|Hn]; [discriminate Hinv |].
      destruct (String.eqb_spec c "") as [->|Hc]; [discriminate Hinv |].
      simpl. split; [reflexivity | split; [lia |]].
      intros x Hx. apply list_elem_of_singleton in Hx as ->.
      exists uuid, n, c. repeat split; assumption.
    + rewrite !String.eqb_refl. simpl.
      split; [exact Hinv | split; [lia |]]. intros x Hx. inversion Hx.
Qed.

Lemma session_cons (ev : AddShortcut.Event) (evs : list AddShortcut.Event)
    (s : AddShortcut.Form * ShortcutsState) :
  let first := AddShortcut.handle newShortcut ev s in
  let rest := AddShortcut.session newShortcut evs (SW.final first) in
  SW.final (AddShortcut.session newShortcut (ev :: evs) s) = SW.final rest /\
  SW.trace (AddShortcut.session newShortcut (ev :: evs) s) =
    SW.trace first ++ SW.trace rest.
Proof.
  cbv zeta. simpl. unfold SW.bind, SW.final, SW.trace.
  destruct (AddShortcut.handle newShortcut ev s) as [[u s1] t1]. simpl.
  destruct (AddShortcut.session newShortcut evs s1) as [[u' s2] t2].
  split; reflexivity.
Qed.

Lemma session_keeps_form_checked (evs : list AddShortcut.Event)
    (s : AddShortcut.Form * ShortcutsState) :
  AddShortcut.ableToSave s.1 =
    negb (String.eqb (AddShortcut.form_name s.1) "") &&
    negb (String.eqb (AddShortcut.form_cmd s.1) "") ->
  let r := AddShortcut.session newShortcut evs s in
  AddShortcut.ableToSave (SW.final r).1 =
    negb (String.eqb (AddShortcut.form_name (SW.final r).1) "") &&
    negb (String.eqb (AddShortcut.form_cmd (SW.final r).1) "") /\
  (length (AddShortcut.added (SW.trace r)) <=
   length (List.filter
             (fun ev =>
                match ev with AddShortcut.ClickSave _ => true | _ => false end)
             evs))%nat /\
  forall x : Shortcut,
    x ∈ AddShortcut.added (SW.trace r) ->
    exists uuid n c : string,
      x = newShortcut uuid n c /\ n <> "" /\ c <> "".
Proof.
  revert s. induction evs as [|ev evs IH]; intros s Hinv.
  - simpl. split; [exact Hinv | split; [lia |]]. intros x Hx. inversion Hx.
  - destruct (handle_keeps_form_checked ev s Hinv) as (Hinv1 & Hlen1 & Hadd1).
    destruct (IH _ Hinv1) as (Hinv2 & Hlen2 & Hadd2).
    destruct (session_cons ev evs s) as [Hfinal Htrace].
    cbv zeta. rewrite Hfinal, Htrace, added_app, length_app.
    split; [exact Hinv2 | split].
    + cbn [List.filter]. destruct ev; simpl in *; lia.
    + intros x Hx. apply elem_of_app in Hx as [Hx|Hx]; auto.
Qed.
End AddShortcutSession.

(** X16.  Through the form, on settled renders: the save button is enabled
    exactly when the name and the command are both non-empty, after every
    event; so every shortcut the form hands to the backend was built from a
    non-empty name and a non-empty command, and a press of the button hands
    over at most one. *)
Theorem form_saves_only_filled_shortcuts
    (newShortcut : string -> string -> string -> Shortcut)
    (evs : list AddShortcut.Event) (st : ShortcutsState) :
  let r := AddShortcut.session newShortcut evs (AddShortcut.mounted st) in
  AddShortcut.ableToSave (SW.final r).1 =
    negb (String.eqb (AddShortcut.form_name (SW.final r).1) "") &&
    negb (String.eqb (AddShortcut.form_cmd (SW.final r).1) "") /\
  (length (AddShortcut.added (SW.trace r)) <=
   length (List.filter
             (fun ev =>
                match ev with AddShortcut.ClickSave _ => true | _ => false end)
             evs))%nat /\
  forall x : Shortcut,
    x ∈ AddShortcut.added (SW.trace r) ->
    exists uuid n c : string,
      x = newShortcut uuid n c /\ n <> "" /\ c <> "".
Proof.
  apply session_keeps_form_checked. reflexivity.
Qed.

Lemma form_saves_only_filled_shortcuts_witness :
  exists uuid n c : string,
    MoreExamples.newShortcut "u-1" "Top" "top" =
    MoreExamples.newShortcut uuid n c /\ n <> "" /\ c <> "".
Proof.
  apply (form_saves_only_filled_shortcuts MoreExamples.newShortcut
           [AddShortcut.ClickSave "u-0"; AddShortcut.ChangeName "Top";
            AddShortcut.ClickSave "u-0"; AddShortcut.ChangeCmd "top";
            AddShortcut.ClickSave "u-1"; AddShortcut.ClickSave "u-2"]
           ShortcutsState.new).
  apply list_elem_of_here.
Defined.

Example form_session_saves_once :
  AddShortcut.added
    (SW.trace
       (AddShortcut.session MoreExamples.newShortcut
          [AddShortcut.ClickSave "u-0"; AddShortcut.ChangeName "Top";
           AddShortcut.ClickSave "u-0"; AddShortcut.ChangeCmd "top";
           AddShortcut.ClickSave "u-1"; AddShortcut.ClickSave "u-2"]
          (AddShortcut.mounted ShortcutsState.new))) =
  [MoreExamples.newShortcut "u-1" "Top" "top"].
Proof. reflexivity. Qed.
